(** * The task store of [app/main.py]

    A shallow embedding of the demo task API of the ephemeral backend:
    the module-level dictionary [tasks_store], the four request handlers
    [create_task], [get_task], [delete_task], [list_tasks] and the
    background coroutine [process_task].

    Python dictionaries are finite maps ([gmap]) from strings; the handlers
    are written in a small state-and-exception monad over the process-wide
    state, because a Python exception keeps the mutations made before it.
    [logger.info] calls have no effect on that state and are left out. *)

From Stdlib Require Import ZArith Floats.PrimFloat.
From stdpp Require Import gmap strings list fin_maps.

Local Open Scope string_scope.
Set Warnings "-register-all".

(** ** Values

    What a [Dict[str, Any]] can hold once a JSON body has been parsed, plus
    the floats returned by [time.time()]. *)

Inductive value : Type :=
| VNone
| VBool (b : bool)
| VInt (z : Z)
| VFloat (f : float)
| VStr (s : string)
| VList (l : list value)
| VDict (d : gmap string value).

Abbreviation dict := (gmap string value).

(** The exceptions a handler can leave with.  [HTTPException 404 _] is the
    service's not-found answer; the other two would surface as a server
    error. *)
Inductive exn : Type :=
| HTTPException (status_code : Z) (detail : string)
| KeyError (key : string)
| ValidationError (field : string).

(** [d[key]]: raises [KeyError] when the key is missing. *)
Definition dict_getitem (key : string) (d : dict) : exn + value :=
  match d !! key with
  | Some v => inr v
  | None => inl (KeyError key)
  end.

(** [d.get(key)]: [None] when the key is missing. *)
Definition dict_get (key : string) (d : dict) : value :=
  match d !! key with
  | Some v => v
  | None => VNone
  end.

(** ** Request and response models *)

Module TaskRequest.
Record t : Type := Build {
  task_id : string;
  data : dict;
  priority : Z
}.

(** [priority: int = 1]: the default applies when the body omits the field. *)
Definition of_body (task_id : string) (data : dict) (priority : option Z) : t :=
  Build task_id data (default 1%Z priority).
End TaskRequest.

Module TaskResponse.
Record t : Type := Build {
  task_id : string;
  status : string;
  message : string;
  result : option dict
}.

(** The model's constructor as the handlers call it: [status] has to be a
    string and [result], an [Optional[Dict[str, Any]]], either [None] or a
    dictionary.  Handler arguments of any other shape are refused. *)
Definition make (task_id : string) (status : value) (message : string)
    (result : value) : exn + t :=
  match status with
  | VStr s =>
      match result with
      | VNone => inr (Build task_id s message None)
      | VDict d => inr (Build task_id s message (Some d))
      | _ => inl (ValidationError "result")
      end
  | _ => inl (ValidationError "status")
  end.
End TaskResponse.

(** ** Process-wide state

    [tasks_store] is the module-level dictionary.  [background_tasks] holds
    the identifiers for which [create_task] has called
    [background_tasks.add_task(process_task, task_id)] and whose coroutine
    has not yet passed its [asyncio.sleep(2)]. *)

Record World : Type := mkWorld {
  tasks_store : gmap string dict;
  background_tasks : list string
}.

Definition init : World := mkWorld ∅ [].

(** ** The handler monad *)

Definition M (A : Type) : Type := World -> (exn + A) * World.

Definition ret {A : Type} (a : A) : M A := fun w => (inr a, w).

Definition raise {A : Type} (e : exn) : M A := fun w => (inl e, w).

Definition bind {A B : Type} (c : M A) (k : A -> M B) : M B :=
  fun w =>
    match c w with
    | (inr a, w') => k a w'
    | (inl e, w') => (inl e, w')
    end.

Definition lift {A : Type} (r : exn + A) : M A :=
  match r with
  | inr a => ret a
  | inl e => raise e
  end.

Notation "x <- c ;; k" := (bind c (fun x => k))
  (at level 100, c at next level, right associativity).
Notation "c ;;; k" := (bind c (fun _ => k))
  (at level 100, right associativity).

(** *** Primitive operations on [tasks_store] *)

(** [task_id in tasks_store] *)
Definition store_contains (task_id : string) : M bool :=
  fun w => (inr (bool_decide (is_Some (tasks_store w !! task_id))), w).

(** [tasks_store[task_id]] *)
Definition store_getitem (task_id : string) : M dict :=
  fun w =>
    match tasks_store w !! task_id with
    | Some rec => (inr rec, w)
    | None => (inl (KeyError task_id), w)
    end.

(** [tasks_store[task_id] = rec] *)
Definition store_setitem (task_id : string) (rec : dict) : M unit :=
  fun w =>
    (inr tt, mkWorld (<[task_id := rec]> (tasks_store w)) (background_tasks w)).

(** [del tasks_store[task_id]] *)
Definition store_delitem (task_id : string) : M unit :=
  fun w =>
    match tasks_store w !! task_id with
    | Some _ =>
        (inr tt, mkWorld (delete task_id (tasks_store w)) (background_tasks w))
    | None => (inl (KeyError task_id), w)
    end.

(** [tasks_store.items()].  The map yields each entry once, in an order of
    its own, where Python yields them in insertion order; no statement below
    depends on the order. *)
Definition store_items : M (list (string * dict)) :=
  fun w => (inr (map_to_list (tasks_store w)), w).

(** [len(tasks_store)] *)
Definition store_len : M Z :=
  fun w => (inr (Z.of_nat (size (tasks_store w))), w).

(** [tasks_store[task_id][key] = v].  The inner dictionary is mutated in
    place; the store holds the only reference to it, so writing the updated
    record back under the same identifier is the same mutation. *)
Definition record_setitem (task_id key : string) (v : value) : M unit :=
  rec <- store_getitem task_id ;;
  store_setitem task_id (<[key := v]> rec).

(** [background_tasks.add_task(process_task, task_id)] *)
Definition add_task (task_id : string) : M unit :=
  fun w => (inr tt, mkWorld (tasks_store w) (background_tasks w ++ [task_id])).

(** ** The handlers *)

(** [POST /tasks].  [now] is the reading of [time.time()] taken while the
    record is built. *)
Definition create_task (task : TaskRequest.t) (now : float) : M TaskResponse.t :=
  store_setitem (TaskRequest.task_id task)
    (<["status" := VStr "pending"]>
      (<["data" := VDict (TaskRequest.data task)]>
        (<["priority" := VInt (TaskRequest.priority task)]>
          (<["created_at" := VFloat now]> ∅)))) ;;;
  add_task (TaskRequest.task_id task) ;;;
  ret (TaskResponse.Build (TaskRequest.task_id task) "accepted"
         "Task created successfully" None).

(** [GET /tasks/{task_id}] *)
Definition get_task (task_id : string) : M TaskResponse.t :=
  present <- store_contains task_id ;;
  if negb present then raise (HTTPException 404 "Task not found")
  else
    task_data <- store_getitem task_id ;;
    status <- lift (dict_getitem "status" task_data) ;;
    lift (TaskResponse.make task_id status "Task retrieved successfully"
            (dict_get "result" task_data)).

(** [DELETE /tasks/{task_id}] *)
Definition delete_task (task_id : string) : M dict :=
  present <- store_contains task_id ;;
  if negb present then raise (HTTPException 404 "Task not found")
  else
    store_delitem task_id ;;;
    ret (<["message" := VStr "Task deleted successfully"]> ∅).

(** One element of the listing: [{"task_id": tid, **data}].  Keys of [data]
    are written after ["task_id"], so they win on a clash. *)
Definition list_entry (item : string * dict) : value :=
  VDict (item.2 ∪ <["task_id" := VStr item.1]> ∅).

(** [GET /tasks] *)
Definition list_tasks : M dict :=
  items <- store_items ;;
  count <- store_len ;;
  ret (<["tasks" := VList (list_entry <$> items)]>
        (<["count" := VInt count]> ∅)).

(** The part of [process_task] that follows [await asyncio.sleep(2)].  It
    contains no further suspension point, so on the event loop it runs as one
    step; [now] is the reading of [time.time()] taken for ["processed_at"]. *)
Definition process_task (task_id : string) (now : float) : M unit :=
  present <- store_contains task_id ;;
  if present then
    record_setitem task_id "status" (VStr "completed") ;;;
    record_setitem task_id "result"
      (VDict (<["processed_at" := VFloat now]>
               (<["message" := VStr "Task completed successfully"]> ∅)))
  else ret tt.

(** ** Runs of the service

    What can happen to the process-wide state: a request is served, or one
    scheduled [process_task] wakes up from its sleep.  A completion step is
    enabled only for an identifier that a creation has scheduled, and it
    consumes that entry. *)

Inductive event : Type :=
| EvCreate (task : TaskRequest.t) (now : float)
| EvGet (task_id : string)
| EvDelete (task_id : string)
| EvList
| EvComplete (task_id : string) (now : float).

Fixpoint unschedule (task_id : string) (pending : list string) : list string :=
  match pending with
  | [] => []
  | p :: pending' =>
      if String.eqb p task_id then pending'
      else p :: unschedule task_id pending'
  end.

Definition is_scheduled (task_id : string) (pending : list string) : bool :=
  existsb (String.eqb task_id) pending.

Definition exec (e : event) (w : World) : option World :=
  match e with
  | EvCreate task now => Some (create_task task now w).2
  | EvGet task_id => Some (get_task task_id w).2
  | EvDelete task_id => Some (delete_task task_id w).2
  | EvList => Some (list_tasks w).2
  | EvComplete task_id now =>
      if is_scheduled task_id (background_tasks w) then
        Some (process_task task_id now
                (mkWorld (tasks_store w)
                   (unschedule task_id (background_tasks w)))).2
      else None
  end.

Fixpoint run (trace : list event) (w : World) : option World :=
  match trace with
  | [] => Some w
  | e :: trace' =>
      match exec e w with
      | Some w' => run trace' w'
      | None => None
      end
  end.

Inductive reachable : World -> Prop :=
| reachable_init : reachable init
| reachable_step (w w' : World) (e : event) :
    reachable w -> exec e w = Some w' -> reachable w'.

(** ** Predicates on records *)

(** The record has a ["result"] entry and it is a non-empty dictionary. *)
Definition result_nonempty (rec : dict) : bool :=
  match rec !! "result" with
  | Some (VDict d) => negb (Nat.eqb (size d) 0)
  | _ => false
  end.

(** The record's ["status"] entry is the string [s]. *)
Definition status_is (s : string) (rec : dict) : bool :=
  match rec !! "status" with
  | Some (VStr s') => String.eqb s' s
  | _ => false
  end.

(** The invariant of the data model, for one record and for a store. *)
Definition result_iff_completed (rec : dict) : Prop :=
  result_nonempty rec = true <-> status_is "completed" rec = true.

(** A property of every stored record. *)
Definition store_all (P : dict -> Prop) (store : gmap string dict) : Prop :=
  map_Forall (fun _ rec => P rec) store.

Definition store_inv (store : gmap string dict) : Prop :=
  store_all result_iff_completed store.

(** The shape of the records the handlers write: a status out of the stored
    vocabulary, a result that is missing or a dictionary, and no key that
    would hide the identifier in a listing. *)
Definition record_shape (rec : dict) : Prop :=
  (rec !! "status" = Some (VStr "pending")
   \/ rec !! "status" = Some (VStr "completed"))
  /\ (rec !! "result" = None \/ exists d : dict, rec !! "result" = Some (VDict d))
  /\ rec !! "task_id" = None.

Definition store_shape (store : gmap string dict) : Prop :=
  store_all record_shape store.

(** What [get_task] reports as [result] for a stored record. *)
Definition stored_result (rec : dict) : option dict :=
  match rec !! "result" with
  | Some (VDict d) => Some d
  | _ => None
  end.

(** The identifier a listing entry carries. *)
Definition entry_task_id (entry : value) : option string :=
  match entry with
  | VDict d =>
      match d !! "task_id" with
      | Some (VStr tid) => Some tid
      | _ => None
      end
  | _ => None
  end.

(** The two fields of a listing. *)
Definition listing_tasks (listing : dict) : list value :=
  match listing !! "tasks" with
  | Some (VList l) => l
  | _ => []
  end.

Definition listing_count (listing : dict) : option Z :=
  match listing !! "count" with
  | Some (VInt n) => Some n
  | _ => None
  end.

(** The body of the answer to [GET /tasks] in state [w]. *)
Definition listing (w : World) : dict :=
  match (list_tasks w).1 with
  | inr body => body
  | inl _ => ∅
  end.

(** Creating a batch of tasks, one request after the other. *)
Definition create_all (reqs : list (TaskRequest.t * float)) (w : World) : World :=
  foldl (fun w' req => (create_task req.1 req.2 w').2) w reqs.

Definition request_ids (reqs : list (TaskRequest.t * float)) : list string :=
  (fun req => TaskRequest.task_id req.1) <$> reqs.

(** The record [process_task] leaves in place of [rec]. *)
Definition completed_record (rec : dict) (now : float) : dict :=
  <["result" := VDict (<["processed_at" := VFloat now]>
                        (<["message" := VStr "Task completed successfully"]> ∅))]>
    (<["status" := VStr "completed"]> rec).

(** The record [create_task] stores. *)
Definition fresh_record (task : TaskRequest.t) (now : float) : dict :=
  <["status" := VStr "pending"]>
    (<["data" := VDict (TaskRequest.data task)]>
      (<["priority" := VInt (TaskRequest.priority task)]>
        (<["created_at" := VFloat now]> ∅))).

(** The payload [process_task] stores under ["result"]. *)
Definition completion_result (now : float) : dict :=
  <["processed_at" := VFloat now]>
    (<["message" := VStr "Task completed successfully"]> ∅).

(** What a completion step for [task_id] leaves behind, with the name of the
    key that carries the timestamp left open. *)
Definition completion_writes (stamp_key task_id : string) (now : float)
    (w : World) : Prop :=
  exists rec' d : dict,
    tasks_store (process_task task_id now w).2 !! task_id = Some rec'
    /\ rec' !! "status" = Some (VStr "completed")
    /\ rec' !! "result" = Some (VDict d)
    /\ d !! stamp_key = Some (VFloat now)
    /\ d !! "message" = Some (VStr "Task completed successfully").

(** ** Sample data *)

Definition t1_request : TaskRequest.t :=
  TaskRequest.Build "t1" (<["x" := VInt 1]> ∅) 5.

Definition t2_request : TaskRequest.t :=
  TaskRequest.of_body "t2" ∅ None.

Definition t1_again : TaskRequest.t :=
  TaskRequest.Build "t1" (<["y" := VStr "z"]> ∅) 9.

Definition clock0 : float := 1700000000.25%float.
Definition clock1 : float := 1700000002.5%float.
Definition clock2 : float := 1700000003.75%float.

Definition w_created : World := (create_task t1_request clock0 init).2.
Definition w_completed : World :=
  (process_task "t1" clock1 (mkWorld (tasks_store w_created) [])).2.

(** ** Bookkeeping on runs *)

(** The identifiers stored after an event, from those stored before it. *)
Definition event_dom (e : event) (ids : gset string) : gset string :=
  match e with
  | EvCreate task _ => {[TaskRequest.task_id task]} ∪ ids
  | EvDelete task_id => ids ∖ {[task_id]}
  | _ => ids
  end.

Definition is_create_of (task_id : string) (e : event) : bool :=
  match e with
  | EvCreate task _ => String.eqb (TaskRequest.task_id task) task_id
  | _ => false
  end.

Definition is_complete_of (task_id : string) (e : event) : bool :=
  match e with
  | EvComplete task_id' _ => String.eqb task_id' task_id
  | _ => false
  end.

Definition is_delete_of (task_id : string) (e : event) : bool :=
  match e with
  | EvDelete task_id' => String.eqb task_id' task_id
  | _ => false
  end.

(** How many scheduled steps wait for [task_id]. *)
Definition scheduled_count (task_id : string) (pending : list string) : nat :=
  length (List.filter (fun p => String.eqb p task_id) pending).

Definition creations (task_id : string) (trace : list event) : nat :=
  length (List.filter (is_create_of task_id) trace).

Definition completions (task_id : string) (trace : list event) : nat :=
  length (List.filter (is_complete_of task_id) trace).

(** The keys of the records the handlers write. *)
Definition pending_keys : gset string :=
  {["status"; "data"; "priority"; "created_at"]}.

Definition completed_keys : gset string := {["result"]} ∪ pending_keys.

Definition record_fields (rec : dict) : Prop :=
  ((rec !! "status" = Some (VStr "pending") /\ dom rec = pending_keys)
   \/ (rec !! "status" = Some (VStr "completed")
       /\ dom rec = completed_keys
       /\ exists now : float,
            rec !! "result" = Some (VDict (completion_result now))))
  /\ (exists d : dict, rec !! "data" = Some (VDict d))
  /\ (exists z : Z, rec !! "priority" = Some (VInt z))
  /\ (exists f : float, rec !! "created_at" = Some (VFloat f)).

(** Every pending record has a completion step waiting for it. *)
Definition pending_scheduled (w : World) : Prop :=
  forall (task_id : string) (rec : dict),
    tasks_store w !! task_id = Some rec ->
    rec !! "status" = Some (VStr "pending") ->
    is_scheduled task_id (background_tasks w) = true.

(** ** Request metrics

    [REQUEST_COUNT] is a counter with one child per label triple (method,
    path, status code); [inc()] adds one to the child that [labels(...)]
    selects, a child never incremented reading zero.  [REQUEST_DURATION] is
    kept as the sequence of observed values, from which the histogram's
    buckets, count and sum derive.  Increments of different requests
    commute, so the middleware of one request is taken as one step. *)

Record Request : Type := mkRequest {
  method : string;
  path : string
}.

Record Response : Type := mkResponse {
  status_code : Z;
  body : value
}.

Abbreviation label := (string * string * Z)%type.

Record Metrics : Type := mkMetrics {
  REQUEST_COUNT : gmap label nat;
  REQUEST_DURATION : list float
}.

Record App : Type := mkApp {
  app_world : World;
  app_metrics : Metrics
}.

Definition counter_value (l : label) (c : gmap label nat) : nat :=
  default 0 (c !! l).

(** [counter.labels(...).inc()] *)
Definition counter_inc (l : label) (c : gmap label nat) : gmap label nat :=
  <[l := S (counter_value l c)]> c.

Definition label_of (request : Request) (response : Response) : label :=
  (method request, path request, status_code response).

(** The [http] middleware.  [call_next] is the rest of the application;
    [start_time] and [end_time] are the two readings of [time.time()].  An
    exception raised by [call_next] leaves the function at the [await], so
    nothing is recorded for that request. *)
Definition metrics_middleware (call_next : Request -> M Response)
    (request : Request) (start_time end_time : float) (a : App)
    : (exn + Response) * App :=
  match call_next request (app_world a) with
  | (inr response, w') =>
      (inr response,
       mkApp w'
         (mkMetrics
            (counter_inc (label_of request response)
               (REQUEST_COUNT (app_metrics a)))
            (REQUEST_DURATION (app_metrics a)
               ++ [PrimFloat.sub end_time start_time])))
  | (inl e, w') => (inl e, mkApp w' (app_metrics a))
  end.

(** A sequence of requests served through the middleware, with the labels of
    those that were answered. *)
Fixpoint serve_all (call_next : Request -> M Response)
    (reqs : list (Request * float * float)) (a : App) : App * list label :=
  match reqs with
  | [] => (a, [])
  | (request, start_time, end_time) :: reqs' =>
      match metrics_middleware call_next request start_time end_time a with
      | (inr response, a') =>
          let (a'', answered) := serve_all call_next reqs' a' in
          (a'', label_of request response :: answered)
      | (inl _, a') => serve_all call_next reqs' a'
      end
  end.

(** A stand-in for the application behind the middleware, used in the
    samples only: it reads the task named by the path, answers a success
    with 200 and the not-found exception with its own status code, and lets
    any other exception through. *)
Definition sample_app (request : Request) : M Response :=
  fun w =>
    match get_task (path request) w with
    | (inr resp, w') =>
        (inr (mkResponse 200 (VStr (TaskResponse.status resp))), w')
    | (inl (HTTPException code detail), w') =>
        (inr (mkResponse code (VStr detail)), w')
    | (inl e, w') => (inl e, w')
    end.

Definition app0 : App := mkApp w_created (mkMetrics ∅ []).

(** ** The window between a creation and a read *)

(** The event is neither a completion step for [task_id] nor a deletion of
    it. *)
Definition spares (task_id : string) (e : event) : bool :=
  negb (is_complete_of task_id e) && negb (is_delete_of task_id e).

(** [GET /tasks/{task_id}] in state [w] answers with status ["pending"] and
    no result. *)
Definition read_is_pending (task_id : string) (w : World) : Prop :=
  exists resp : TaskResponse.t,
    (get_task task_id w).1 = inr resp
    /\ TaskResponse.task_id resp = task_id
    /\ TaskResponse.status resp = "pending"
    /\ TaskResponse.result resp = None.

(** The stored record of [task_id] is pending and has no result. *)
Definition stored_pending (task_id : string) (w : World) : Prop :=
  exists rec : dict,
    tasks_store w !! task_id = Some rec
    /\ rec !! "status" = Some (VStr "pending")
    /\ rec !! "result" = None.

(** A creation in state [w], then the events [mid], then a read, where the
    task is neither deleted nor created again in between and the completion
    step that the creation scheduled has not run.  Every step sleeps the same
    two seconds, so the steps for one identifier wake in the order in which
    they were scheduled: the creation's own step has not run as long as no
    more steps for the identifier have run since the creation than were
    waiting before it. *)
Definition pending_before_own_step (task : TaskRequest.t) (now : float)
    (w : World) (mid : list event) : Prop :=
  forall w' : World,
    run (EvCreate task now :: mid) w = Some w' ->
    creations (TaskRequest.task_id task) mid = 0 ->
    forallb (fun e => negb (is_delete_of (TaskRequest.task_id task) e)) mid = true ->
    completions (TaskRequest.task_id task) mid
    <= scheduled_count (TaskRequest.task_id task) (background_tasks w) ->
    read_is_pending (TaskRequest.task_id task) w'.

(** * Properties *)

Example run_scenario :
  run [EvCreate t1_request clock0; EvGet "t1"; EvComplete "t1" clock1; EvList] init
  = Some (mkWorld
            (<["t1" := <["result" := VDict (completion_result clock1)]>
                         (<["status" := VStr "completed"]>
                           (fresh_record t1_request clock0))]> ∅)
            []).
Proof. reflexivity. Qed.

Example get_scenario :
  (get_task "t1" w_completed).1
  = inr (TaskResponse.Build "t1" "completed" "Task retrieved successfully"
           (Some (completion_result clock1))).
Proof. reflexivity. Qed.

Example complete_unscheduled : exec (EvComplete "t9" clock1) w_created = None.
Proof. reflexivity. Qed.

Example list_scenario :
  (list_tasks w_created).1
  = inr (<["tasks" := VList [VDict (<["task_id" := VStr "t1"]>
                                      (fresh_record t1_request clock0))]]>
          (<["count" := VInt 1]> ∅)).
Proof. reflexivity. Qed.

(** ** What each handler computes *)

Lemma create_task_eq (task : TaskRequest.t) (now : float) (w : World) :
  create_task task now w
  = (inr (TaskResponse.Build (TaskRequest.task_id task) "accepted"
            "Task created successfully" None),
     mkWorld (<[TaskRequest.task_id task := fresh_record task now]> (tasks_store w))
       (background_tasks w ++ [TaskRequest.task_id task])).
Proof. reflexivity. Qed.

Lemma store_contains_eq (task_id : string) (w : World) :
  store_contains task_id w
  = (inr (match tasks_store w !! task_id with Some _ => true | None => false end), w).
Proof.
  unfold store_contains. destruct (tasks_store w !! task_id) as [rec|] eqn:Hlk.
  - rewrite bool_decide_eq_true_2; [done | by eexists].
  - rewrite bool_decide_eq_false_2; [done | by intros [? ?]].
Qed.

Lemma get_task_absent (task_id : string) (w : World) :
  tasks_store w !! task_id = None ->
  get_task task_id w = (inl (HTTPException 404 "Task not found"), w).
Proof.
  intros Hlk. unfold get_task, bind. rewrite store_contains_eq, Hlk. reflexivity.
Qed.

Lemma get_task_present (task_id : string) (w : World) (rec : dict) :
  tasks_store w !! task_id = Some rec ->
  get_task task_id w
  = (match dict_getitem "status" rec with
     | inr status =>
         TaskResponse.make task_id status "Task retrieved successfully"
           (dict_get "result" rec)
     | inl e => inl e
     end, w).
Proof.
  intros Hlk. unfold get_task, bind, store_getitem.
  rewrite store_contains_eq, Hlk. simpl. rewrite Hlk.
  destruct (dict_getitem "status" rec) as [e|status]; simpl; [done|].
  by destruct (TaskResponse.make _ _ _ _).
Qed.

Lemma get_task_world (task_id : string) (w : World) : (get_task task_id w).2 = w.
Proof.
  destruct (tasks_store w !! task_id) as [rec|] eqn:Hlk.
  - by rewrite (get_task_present _ _ _ Hlk).
  - by rewrite (get_task_absent _ _ Hlk).
Qed.

Lemma delete_task_absent (task_id : string) (w : World) :
  tasks_store w !! task_id = None ->
  delete_task task_id w = (inl (HTTPException 404 "Task not found"), w).
Proof.
  intros Hlk. unfold delete_task, bind. rewrite store_contains_eq, Hlk. reflexivity.
Qed.

Lemma delete_task_present (task_id : string) (w : World) (rec : dict) :
  tasks_store w !! task_id = Some rec ->
  delete_task task_id w
  = (inr (<["message" := VStr "Task deleted successfully"]> ∅),
     mkWorld (delete task_id (tasks_store w)) (background_tasks w)).
Proof.
  intros Hlk. unfold delete_task, bind, store_delitem.
  rewrite store_contains_eq, Hlk. simpl. by rewrite Hlk.
Qed.

Lemma list_tasks_eq (w : World) :
  list_tasks w
  = (inr (<["tasks" := VList (list_entry <$> map_to_list (tasks_store w))]>
           (<["count" := VInt (Z.of_nat (size (tasks_store w)))]> ∅)), w).
Proof. reflexivity. Qed.

Lemma process_task_absent (task_id : string) (now : float) (w : World) :
  tasks_store w !! task_id = None ->
  process_task task_id now w = (inr tt, w).
Proof.
  intros Hlk. unfold process_task, bind. rewrite store_contains_eq, Hlk. reflexivity.
Qed.

Lemma process_task_present (task_id : string) (now : float) (w : World) (rec : dict) :
  tasks_store w !! task_id = Some rec ->
  process_task task_id now w
  = (inr tt,
     mkWorld (<[task_id := completed_record rec now]> (tasks_store w))
       (background_tasks w)).
Proof.
  intros Hlk.
  unfold process_task, record_setitem, bind, store_getitem, store_setitem.
  rewrite store_contains_eq, Hlk. simpl. rewrite Hlk. simpl.
  rewrite lookup_insert_eq. simpl.
  by rewrite insert_insert_eq.
Qed.

(** ** Properties of every record the handlers write *)

Section Preservation.

Variable P : dict -> Prop.
Hypothesis P_fresh : forall task now, P (fresh_record task now).
Hypothesis P_completed : forall rec now, P rec -> P (completed_record rec now).

Lemma create_task_preserves (task : TaskRequest.t) (now : float) (w : World) :
  store_all P (tasks_store w) -> store_all P (tasks_store (create_task task now w).2).
Proof.
  intros Hw. rewrite create_task_eq. simpl.
  apply map_Forall_insert_2; [apply P_fresh | exact Hw].
Qed.

Lemma get_task_preserves (task_id : string) (w : World) :
  store_all P (tasks_store w) -> store_all P (tasks_store (get_task task_id w).2).
Proof. by rewrite get_task_world. Qed.

Lemma list_tasks_preserves (w : World) : store_all P (tasks_store w) -> store_all P (tasks_store (list_tasks w).2).
Proof. by rewrite list_tasks_eq. Qed.

Lemma delete_task_preserves (task_id : string) (w : World) :
  store_all P (tasks_store w) -> store_all P (tasks_store (delete_task task_id w).2).
Proof.
  intros Hw. destruct (tasks_store w !! task_id) as [rec|] eqn:Hlk.
  - rewrite (delete_task_present _ _ _ Hlk). simpl.
    by apply map_Forall_delete.
  - by rewrite (delete_task_absent _ _ Hlk).
Qed.

Lemma process_task_preserves (task_id : string) (now : float) (w : World) :
  store_all P (tasks_store w) -> store_all P (tasks_store (process_task task_id now w).2).
Proof.
  intros Hw. destruct (tasks_store w !! task_id) as [rec|] eqn:Hlk.
  - rewrite (process_task_present _ _ _ _ Hlk). simpl.
    apply map_Forall_insert_2; [|exact Hw].
    apply P_completed. exact (Hw _ _ Hlk).
  - by rewrite (process_task_absent _ _ _ Hlk).
Qed.

Lemma exec_preserves (e : event) (w w' : World) :
  store_all P (tasks_store w) -> exec e w = Some w' -> store_all P (tasks_store w').
Proof.
  intros Hw Hexec. destruct e as [task now|tid|tid| |tid now]; simpl in Hexec.
  - inversion Hexec; subst. by apply create_task_preserves.
  - inversion Hexec; subst. by apply get_task_preserves.
  - inversion Hexec; subst. by apply delete_task_preserves.
  - inversion Hexec; subst. by apply list_tasks_preserves.
  - destruct (is_scheduled tid (background_tasks w)); [|discriminate].
    inversion Hexec; subst. by apply process_task_preserves.
Qed.

Lemma reachable_preserves (w : World) : reachable w -> store_all P (tasks_store w).
Proof.
  induction 1 as [|w w' e _ IH Hexec].
  - simpl. apply map_Forall_empty.
  - exact (exec_preserves e w w' IH Hexec).
Qed.

End Preservation.

Lemma fresh_record_inv (task : TaskRequest.t) (now : float) :
  result_iff_completed (fresh_record task now).
Proof. unfold result_iff_completed. vm_compute. split; discriminate. Qed.

Lemma completed_record_inv (rec : dict) (now : float) :
  result_iff_completed (completed_record rec now).
Proof.
  unfold result_iff_completed, result_nonempty, status_is, completed_record.
  rewrite lookup_insert_eq.
  rewrite lookup_insert_ne, lookup_insert_eq by done.
  split; reflexivity.
Qed.

Lemma fresh_record_shape (task : TaskRequest.t) (now : float) :
  record_shape (fresh_record task now).
Proof. repeat split; [by left | by left]. Qed.

Lemma completed_record_shape (rec : dict) (now : float) :
  record_shape rec -> record_shape (completed_record rec now).
Proof.
  intros (_ & _ & Hid). unfold record_shape, completed_record.
  rewrite lookup_insert_eq.
  rewrite lookup_insert_ne, lookup_insert_eq by done.
  rewrite !lookup_insert_ne by done.
  split; [by right|]. split; [right; by eexists | exact Hid].
Qed.

Lemma reachable_store_inv (w : World) : reachable w -> store_inv (tasks_store w).
Proof.
  apply (reachable_preserves result_iff_completed).
  - exact fresh_record_inv.
  - intros rec now _. apply completed_record_inv.
Qed.

Lemma reachable_store_shape (w : World) : reachable w -> store_shape (tasks_store w).
Proof.
  apply (reachable_preserves record_shape).
  - exact fresh_record_shape.
  - exact completed_record_shape.
Qed.

(** ** The invariant of the data model *)

Lemma status_is_spec (s : string) (rec : dict) :
  status_is s rec = true <-> rec !! "status" = Some (VStr s).
Proof.
  unfold status_is. destruct (rec !! "status") as [[]|]; try (split; discriminate).
  rewrite String.eqb_eq. split; [by intros -> | by intros [= ->]].
Qed.

Lemma result_nonempty_spec (rec : dict) :
  result_nonempty rec = true
  <-> exists d : dict, rec !! "result" = Some (VDict d) /\ d <> ∅.
Proof.
  unfold result_nonempty. split.
  - destruct (rec !! "result") as [[]|]; try discriminate.
    intros Hsz. eexists; split; [reflexivity|].
    intros ->. by rewrite map_size_empty in Hsz.
  - intros (d & -> & Hne).
    destruct (size d) eqn:Hsz; [|done].
    by apply map_size_empty_inv in Hsz.
Qed.

(** C1: in every reachable state, each stored record has a non-empty
    [result] exactly when its [status] is ["completed"]; and from any store
    with that property, create, get, list, delete and the completion step
    each lead to a store with it again. *)
Theorem result_iff_completed_invariant (w : World) :
  (reachable w ->
   forall (task_id : string) (rec : dict),
     tasks_store w !! task_id = Some rec ->
     (exists d : dict, rec !! "result" = Some (VDict d) /\ d <> ∅)
     <-> rec !! "status" = Some (VStr "completed"))
  /\ (store_inv (tasks_store w) ->
      (forall task now, store_inv (tasks_store (create_task task now w).2))
      /\ (forall task_id, store_inv (tasks_store (get_task task_id w).2))
      /\ store_inv (tasks_store (list_tasks w).2)
      /\ (forall task_id, store_inv (tasks_store (delete_task task_id w).2))
      /\ (forall task_id now,
            store_inv (tasks_store (process_task task_id now w).2))).
Proof.
  split.
  - intros Hreach task_id rec Hlk.
    rewrite <- result_nonempty_spec, <- status_is_spec.
    exact (reachable_store_inv w Hreach task_id rec Hlk).
  - intros Hinv. split; [|split; [|split; [|split]]]; intros.
    + apply create_task_preserves; [apply fresh_record_inv | exact Hinv].
    + by apply get_task_preserves.
    + by apply list_tasks_preserves.
    + by apply delete_task_preserves.
    + apply process_task_preserves; [|exact Hinv].
      intros rec now' _. apply completed_record_inv.
Qed.

Lemma reachable_w_completed : reachable w_completed.
Proof.
  apply (reachable_step w_created w_completed (EvComplete "t1" clock1));
    [|reflexivity].
  apply (reachable_step init w_created (EvCreate t1_request clock0));
    [|reflexivity].
  exact reachable_init.
Qed.

Lemma result_iff_completed_invariant_witness :
  ((exists d : dict,
       completed_record (fresh_record t1_request clock0) clock1 !! "result"
       = Some (VDict d) /\ d <> ∅)
   <-> completed_record (fresh_record t1_request clock0) clock1 !! "status"
       = Some (VStr "completed"))
  /\ store_inv (tasks_store (delete_task "t1" w_completed).2).
Proof.
  split.
  - apply (proj1 (result_iff_completed_invariant w_completed)
             reachable_w_completed "t1").
    reflexivity.
  - apply (proj2 (result_iff_completed_invariant w_completed)).
    exact (reachable_store_inv w_completed reachable_w_completed).
Defined.

(** ** Creation followed by a read *)

Lemma fresh_record_status (task : TaskRequest.t) (now : float) :
  fresh_record task now !! "status" = Some (VStr "pending").
Proof. reflexivity. Qed.

Lemma fresh_record_result (task : TaskRequest.t) (now : float) :
  fresh_record task now !! "result" = None.
Proof. reflexivity. Qed.

Lemma get_after_create (task : TaskRequest.t) (now : float) (w : World) :
  get_task (TaskRequest.task_id task) (create_task task now w).2
  = (inr (TaskResponse.Build (TaskRequest.task_id task) "pending"
            "Task retrieved successfully" None),
     (create_task task now w).2).
Proof.
  rewrite create_task_eq. simpl.
  rewrite (get_task_present _ _ (fresh_record task now)).
  - reflexivity.
  - simpl. apply lookup_insert_eq.
Qed.

(** ** The completion step *)

Lemma completed_record_status (rec : dict) (now : float) :
  completed_record rec now !! "status" = Some (VStr "completed").
Proof.
  unfold completed_record. by rewrite lookup_insert_ne, lookup_insert_eq.
Qed.

Lemma completed_record_result (rec : dict) (now : float) :
  completed_record rec now !! "result" = Some (VDict (completion_result now)).
Proof. unfold completed_record. by rewrite lookup_insert_eq. Qed.

Lemma completed_record_other (rec : dict) (now : float) (key : string) :
  key <> "status" -> key <> "result" ->
  completed_record rec now !! key = rec !! key.
Proof.
  intros Hs Hr. unfold completed_record. by rewrite !lookup_insert_ne.
Qed.

(** C3, as the code has it: when the identifier is in the store, the
    completion step sets the record's status to ["completed"] and its result
    to the two-entry dictionary holding the timestamp under ["processed_at"]
    and the fixed message under ["message"]. *)
Theorem completion_sets_status_and_result
    (task_id : string) (now : float) (w : World) (rec : dict) :
  tasks_store w !! task_id = Some rec ->
  completion_writes "processed_at" task_id now w
  /\ exists rec' : dict,
       tasks_store (process_task task_id now w).2 !! task_id = Some rec'
       /\ rec' !! "result"
          = Some (VDict (<["processed_at" := VFloat now]>
                          (<["message" := VStr "Task completed successfully"]> ∅))).
Proof.
  intros Hlk. rewrite (process_task_present _ _ _ _ Hlk).
  split.
  - exists (completed_record rec now), (completion_result now).
    unfold completion_writes. rewrite (process_task_present _ _ _ _ Hlk). simpl.
    rewrite lookup_insert_eq, completed_record_status, completed_record_result.
    done.
  - exists (completed_record rec now). simpl.
    by rewrite lookup_insert_eq, completed_record_result.
Qed.

Lemma completion_sets_status_and_result_witness :
  completion_writes "processed_at" "t1" clock1 w_created
  /\ exists rec' : dict,
       tasks_store (process_task "t1" clock1 w_created).2 !! "t1" = Some rec'
       /\ rec' !! "result"
          = Some (VDict (<["processed_at" := VFloat clock1]>
                          (<["message" := VStr "Task completed successfully"]> ∅))).
Proof.
  apply (completion_sets_status_and_result "t1" clock1 w_created
           (fresh_record t1_request clock0)).
  reflexivity.
Defined.

(** C3, as worded: the timestamp would sit under ["completed_at"].  For the
    task ["t1"], present in the store, the completion step writes no such
    key. *)
Lemma completion_has_no_completed_at :
  is_Some (tasks_store w_created !! "t1")
  /\ ~ completion_writes "completed_at" "t1" clock1 w_created.
Proof.
  split; [by eexists|].
  intros (rec' & d & Hrec & _ & Hres & Hstamp & _).
  rewrite (process_task_present "t1" clock1 w_created
             (fresh_record t1_request clock0) eq_refl) in Hrec.
  simpl in Hrec. rewrite lookup_insert_eq in Hrec.
  injection Hrec as <-.
  rewrite completed_record_result in Hres.
  injection Hres as <-.
  vm_compute in Hstamp. discriminate.
Qed.

(** C4: a completion step for an identifier that is not in the store changes
    nothing, so the identifier is still unknown to a read afterwards; and
    in the run create, delete, completion the record does not come back. *)
Theorem completion_of_absent_is_noop (task_id : string) (now : float) (w : World) :
  (tasks_store w !! task_id = None ->
   process_task task_id now w = (inr tt, w)
   /\ (get_task task_id (process_task task_id now w).2).1
      = inl (HTTPException 404 "Task not found")
   /\ forall w' : World,
        exec (EvComplete task_id now) w = Some w' ->
        tasks_store w' = tasks_store w)
  /\ (forall (task : TaskRequest.t) (now0 : float),
        TaskRequest.task_id task = task_id ->
        exists w3 : World,
          run [EvCreate task now0; EvDelete task_id; EvComplete task_id now] w
          = Some w3
          /\ tasks_store w3 !! task_id = None
          /\ (get_task task_id w3).1 = inl (HTTPException 404 "Task not found")).
Proof.
  split.
  - intros Hlk. rewrite (process_task_absent _ _ _ Hlk). simpl.
    split; [reflexivity|]. split.
    + by rewrite (get_task_absent _ _ Hlk).
    + intros w' Hexec. simpl in Hexec.
      destruct (is_scheduled task_id (background_tasks w)); [|discriminate].
      rewrite process_task_absent in Hexec by exact Hlk.
      by injection Hexec as <-.
  - intros task now0 <-. set (tid := TaskRequest.task_id task).
    assert (Hdel : tasks_store (delete_task tid (create_task task now0 w).2).2 !! tid
                   = None).
    { rewrite create_task_eq. simpl.
      rewrite (delete_task_present _ _ (fresh_record task now0))
        by (simpl; apply lookup_insert_eq).
      simpl. apply lookup_delete_eq. }
    assert (Hsch : is_scheduled tid
                     (background_tasks (delete_task tid (create_task task now0 w).2).2)
                   = true).
    { rewrite create_task_eq. simpl.
      rewrite (delete_task_present _ _ (fresh_record task now0))
        by (simpl; apply lookup_insert_eq).
      simpl. unfold is_scheduled. rewrite existsb_app. simpl.
      by rewrite String.eqb_refl, orb_true_r. }
    cbn [run exec]. rewrite Hsch.
    rewrite process_task_absent by exact Hdel.
    eexists. split; [reflexivity|]. simpl. split; [exact Hdel|].
    by rewrite get_task_absent.
Qed.

Lemma completion_of_absent_is_noop_witness :
  process_task "t2" clock1 w_created = (inr tt, w_created)
  /\ (get_task "t2" (process_task "t2" clock1 w_created).2).1
     = inl (HTTPException 404 "Task not found")
  /\ forall w' : World,
       exec (EvComplete "t2" clock1) w_created = Some w' ->
       tasks_store w' = tasks_store w_created.
Proof.
  apply (proj1 (completion_of_absent_is_noop "t2" clock1 w_created)).
  reflexivity.
Defined.

(** ** Reading a task *)

Lemma get_task_not_found_iff (task_id : string) (w : World) :
  (get_task task_id w).1 = inl (HTTPException 404 "Task not found")
  <-> tasks_store w !! task_id = None.
Proof.
  split.
  - destruct (tasks_store w !! task_id) as [rec|] eqn:Hlk; [|done].
    rewrite (get_task_present _ _ _ Hlk). simpl.
    unfold dict_getitem, TaskResponse.make.
    destruct (rec !! "status") as [[]|]; try discriminate.
    destruct (dict_get "result" rec); discriminate.
  - intros Hlk. by rewrite (get_task_absent _ _ Hlk).
Qed.

Lemma get_task_shaped (task_id : string) (w : World) (rec : dict) :
  tasks_store w !! task_id = Some rec ->
  record_shape rec ->
  exists s : string,
    rec !! "status" = Some (VStr s)
    /\ (s = "pending" \/ s = "completed")
    /\ (get_task task_id w).1
       = inr (TaskResponse.Build task_id s "Task retrieved successfully"
                (stored_result rec)).
Proof.
  intros Hlk (Hstatus & Hresult & _).
  rewrite (get_task_present _ _ _ Hlk). simpl.
  unfold dict_getitem, dict_get, stored_result.
  destruct Hstatus as [Hs|Hs]; rewrite Hs;
    (eexists; split; [reflexivity|]; split; [auto|]);
    destruct Hresult as [Hr|[d Hr]]; rewrite Hr; reflexivity.
Qed.

(** C5: a read fails with the not-found answer exactly when the identifier
    is not in the store, and it never changes the state; on a reachable
    state, a read of a stored identifier answers with the stored status,
    which is ["pending"] or ["completed"], and with the stored result when
    there is one. *)
Theorem get_task_reports_store (task_id : string) (w : World) :
  ((get_task task_id w).1 = inl (HTTPException 404 "Task not found")
   <-> tasks_store w !! task_id = None)
  /\ (get_task task_id w).2 = w
  /\ (reachable w ->
      forall rec : dict,
        tasks_store w !! task_id = Some rec ->
        exists s : string,
          rec !! "status" = Some (VStr s)
          /\ (s = "pending" \/ s = "completed")
          /\ (get_task task_id w).1
             = inr (TaskResponse.Build task_id s "Task retrieved successfully"
                      (stored_result rec))).
Proof.
  split; [apply get_task_not_found_iff|].
  split; [apply get_task_world|].
  intros Hreach rec Hlk.
  apply get_task_shaped; [exact Hlk|].
  exact (reachable_store_shape w Hreach task_id rec Hlk).
Qed.

Lemma get_task_reports_store_witness :
  exists s : string,
    completed_record (fresh_record t1_request clock0) clock1 !! "status"
    = Some (VStr s)
    /\ (s = "pending" \/ s = "completed")
    /\ (get_task "t1" w_completed).1
       = inr (TaskResponse.Build "t1" s "Task retrieved successfully"
                (stored_result
                   (completed_record (fresh_record t1_request clock0) clock1))).
Proof.
  apply (proj2 (proj2 (get_task_reports_store "t1" w_completed))).
  - apply (reachable_step w_created w_completed (EvComplete "t1" clock1));
      [|reflexivity].
    apply (reachable_step init w_created (EvCreate t1_request clock0));
      [|reflexivity].
    exact reachable_init.
  - reflexivity.
Defined.

(** ** Deleting a task *)

(** C6: deleting a stored identifier removes its record and nothing else, so
    that a read of it then fails with the not-found answer; deleting an
    unknown identifier fails with the not-found answer and leaves the state
    as it was; the failure occurs for unknown identifiers only. *)
Theorem delete_task_removes (task_id : string) (w : World) :
  (forall rec : dict,
     tasks_store w !! task_id = Some rec ->
     delete_task task_id w
     = (inr (<["message" := VStr "Task deleted successfully"]> ∅),
        mkWorld (delete task_id (tasks_store w)) (background_tasks w))
     /\ tasks_store (delete_task task_id w).2 !! task_id = None
     /\ (forall other : string,
           other <> task_id ->
           tasks_store (delete_task task_id w).2 !! other = tasks_store w !! other)
     /\ (get_task task_id (delete_task task_id w).2).1
        = inl (HTTPException 404 "Task not found"))
  /\ (tasks_store w !! task_id = None ->
      delete_task task_id w = (inl (HTTPException 404 "Task not found"), w))
  /\ ((delete_task task_id w).1 = inl (HTTPException 404 "Task not found")
      <-> tasks_store w !! task_id = None).
Proof.
  split; [|split].
  - intros rec Hlk. rewrite (delete_task_present _ _ _ Hlk). simpl.
    split; [reflexivity|]. split; [apply lookup_delete_eq|]. split.
    + intros other Hne. by apply lookup_delete_ne.
    + rewrite get_task_absent; [reflexivity|]. simpl. apply lookup_delete_eq.
  - apply delete_task_absent.
  - split.
    + destruct (tasks_store w !! task_id) as [rec|] eqn:Hlk; [|done].
      by rewrite (delete_task_present _ _ _ Hlk).
    + intros Hlk. by rewrite (delete_task_absent _ _ Hlk).
Qed.

Lemma delete_task_removes_witness :
  (delete_task "t1" w_created
   = (inr (<["message" := VStr "Task deleted successfully"]> ∅),
      mkWorld (delete "t1" (tasks_store w_created)) (background_tasks w_created))
   /\ tasks_store (delete_task "t1" w_created).2 !! "t1" = None
   /\ (forall other : string,
         other <> "t1" ->
         tasks_store (delete_task "t1" w_created).2 !! other
         = tasks_store w_created !! other)
   /\ (get_task "t1" (delete_task "t1" w_created).2).1
      = inl (HTTPException 404 "Task not found"))
  /\ delete_task "t2" w_created
     = (inl (HTTPException 404 "Task not found"), w_created).
Proof.
  split.
  - apply (proj1 (delete_task_removes "t1" w_created)
             (fresh_record t1_request clock0)).
    reflexivity.
  - apply (proj1 (proj2 (delete_task_removes "t2" w_created))).
    reflexivity.
Defined.

(** ** Creating a task *)

(** C8: creation succeeds on every request and in every state, and its
    answer always carries the status ["accepted"] and the message
    ["Task created successfully"], while the record it stores has the
    status ["pending"]. *)
Theorem create_task_always_accepts (task : TaskRequest.t) (now : float) (w : World) :
  (create_task task now w).1
  = inr (TaskResponse.Build (TaskRequest.task_id task) "accepted"
           "Task created successfully" None)
  /\ exists rec : dict,
       tasks_store (create_task task now w).2 !! TaskRequest.task_id task = Some rec
       /\ rec !! "status" = Some (VStr "pending").
Proof.
  rewrite create_task_eq. simpl. split; [reflexivity|].
  exists (fresh_record task now). split; [apply lookup_insert_eq | reflexivity].
Qed.

(** ** The frame of the completion step *)

(** C10: when the identifier is in the store, the completion step rewrites
    the [status] and [result] entries of that record only: its [data],
    [priority] and [created_at] entries, every other entry of the record,
    the records of all other identifiers, the set of stored identifiers and
    the scheduled steps are as before. *)
Theorem completion_changes_status_and_result_only
    (task_id : string) (now : float) (w : World) (rec : dict) :
  tasks_store w !! task_id = Some rec ->
  exists rec' : dict,
    tasks_store (process_task task_id now w).2 !! task_id = Some rec'
    /\ rec' !! "data" = rec !! "data"
    /\ rec' !! "priority" = rec !! "priority"
    /\ rec' !! "created_at" = rec !! "created_at"
    /\ (forall key : string,
          key <> "status" -> key <> "result" -> rec' !! key = rec !! key)
    /\ (forall other : string,
          other <> task_id ->
          tasks_store (process_task task_id now w).2 !! other
          = tasks_store w !! other)
    /\ dom (tasks_store (process_task task_id now w).2) = dom (tasks_store w)
    /\ background_tasks (process_task task_id now w).2 = background_tasks w.
Proof.
  intros Hlk. rewrite (process_task_present _ _ _ _ Hlk). simpl.
  exists (completed_record rec now).
  split; [apply lookup_insert_eq|].
  do 3 (split; [by apply completed_record_other|]).
  split; [intros key Hs Hr; by apply completed_record_other|].
  split; [intros other Hne; by apply lookup_insert_ne|].
  split; [|reflexivity].
  apply dom_insert_lookup_L. by eexists.
Qed.

Lemma completion_changes_status_and_result_only_witness :
  exists rec' : dict,
    tasks_store (process_task "t1" clock1 w_created).2 !! "t1" = Some rec'
    /\ rec' !! "data" = fresh_record t1_request clock0 !! "data"
    /\ rec' !! "priority" = fresh_record t1_request clock0 !! "priority"
    /\ rec' !! "created_at" = fresh_record t1_request clock0 !! "created_at"
    /\ (forall key : string,
          key <> "status" -> key <> "result" ->
          rec' !! key = fresh_record t1_request clock0 !! key)
    /\ (forall other : string,
          other <> "t1" ->
          tasks_store (process_task "t1" clock1 w_created).2 !! other
          = tasks_store w_created !! other)
    /\ dom (tasks_store (process_task "t1" clock1 w_created).2)
       = dom (tasks_store w_created)
    /\ background_tasks (process_task "t1" clock1 w_created).2
       = background_tasks w_created.
Proof.
  apply (completion_changes_status_and_result_only "t1" clock1 w_created
           (fresh_record t1_request clock0)).
  reflexivity.
Defined.

(** ** One record per identifier *)

Lemma filter_key_absent {V : Type} (l : list (string * V)) (key : string) :
  key ∉ l.*1 -> filter (fun item => item.1 = key) l = [].
Proof.
  induction l as [|[k x] l IH]; intros Hnin; [reflexivity|].
  simpl in Hnin. apply not_elem_of_cons in Hnin as [Hne Hnin].
  rewrite filter_cons_False by (simpl; congruence).
  by apply IH.
Qed.

Lemma filter_key_length {V : Type} (l : list (string * V)) (key : string) (v : V) :
  NoDup l.*1 -> (key, v) ∈ l ->
  length (filter (fun item => item.1 = key) l) = 1.
Proof.
  induction l as [|[k x] l IH]; intros Hnd Hin.
  - by apply elem_of_nil in Hin.
  - simpl in Hnd. apply NoDup_cons in Hnd as [Hk Hnd].
    apply elem_of_cons in Hin as [Heq|Hin].
    + injection Heq as <- <-.
      rewrite filter_cons_True by done.
      by rewrite filter_key_absent.
    + rewrite filter_cons_False; [by apply IH|].
      simpl. intros ->. apply Hk, list_elem_of_fmap. by exists (key, v).
Qed.

Lemma store_key_once (store : gmap string dict) (task_id : string) (rec : dict) :
  store !! task_id = Some rec ->
  length (filter (fun item => item.1 = task_id) (map_to_list store)) = 1.
Proof.
  intros Hlk. apply (filter_key_length _ _ rec).
  - apply NoDup_fst_map_to_list.
  - by apply elem_of_map_to_list.
Qed.

Lemma create_over (task : TaskRequest.t) (now : float) (w : World) :
  length (filter (fun item => item.1 = TaskRequest.task_id task)
            (map_to_list (tasks_store (create_task task now w).2))) = 1
  /\ tasks_store (create_task task now w).2 !! TaskRequest.task_id task
     = Some (fresh_record task now).
Proof.
  rewrite create_task_eq. simpl.
  assert (Hlk : <[TaskRequest.task_id task := fresh_record task now]> (tasks_store w)
                !! TaskRequest.task_id task = Some (fresh_record task now))
    by apply lookup_insert_eq.
  split; [exact (store_key_once _ _ _ Hlk) | exact Hlk].
Qed.

(** C7: after two creations with the same identifier the store holds
    exactly one record for it, the second creation added no record, and the
    record is the one the second request describes: its data and priority,
    status ["pending"], no result; the same holds when the first task was
    completed in between. *)
Theorem create_twice_overwrites
    (first second : TaskRequest.t) (now1 now2 : float) (w : World) :
  TaskRequest.task_id first = TaskRequest.task_id second ->
  forall w1 : World,
    w1 = (create_task first now1 w).2
    \/ (exists now' : float,
          w1 = (process_task (TaskRequest.task_id first) now'
                  (create_task first now1 w).2).2) ->
    length (filter (fun item => item.1 = TaskRequest.task_id second)
              (map_to_list (tasks_store (create_task second now2 w1).2))) = 1
    /\ size (tasks_store (create_task second now2 w1).2) = size (tasks_store w1)
    /\ exists rec : dict,
         tasks_store (create_task second now2 w1).2 !! TaskRequest.task_id second
         = Some rec
         /\ rec !! "data" = Some (VDict (TaskRequest.data second))
         /\ rec !! "priority" = Some (VInt (TaskRequest.priority second))
         /\ rec !! "created_at" = Some (VFloat now2)
         /\ rec !! "status" = Some (VStr "pending")
         /\ rec !! "result" = None.
Proof.
  intros Hid w1 Hw1.
  destruct (create_over second now2 w1) as [Hone Hlk].
  split; [exact Hone|]. split.
  - rewrite create_task_eq. simpl. apply map_size_insert_Some.
    rewrite <- Hid.
    destruct Hw1 as [->|[now' ->]].
    + rewrite create_task_eq. simpl. rewrite lookup_insert_eq. by eexists.
    + rewrite create_task_eq.
      rewrite (process_task_present _ _ _ (fresh_record first now1))
        by (simpl; apply lookup_insert_eq).
      simpl. rewrite lookup_insert_eq. by eexists.
  - exists (fresh_record second now2). split; [exact Hlk|]. done.
Qed.

Lemma create_twice_overwrites_witness :
  length (filter (fun item => item.1 = "t1")
            (map_to_list (tasks_store (create_task t1_again clock2 w_created).2))) = 1
  /\ size (tasks_store (create_task t1_again clock2 w_created).2)
     = size (tasks_store w_created)
  /\ exists rec : dict,
       tasks_store (create_task t1_again clock2 w_created).2 !! "t1" = Some rec
       /\ rec !! "data" = Some (VDict (<["y" := VStr "z"]> ∅))
       /\ rec !! "priority" = Some (VInt 9)
       /\ rec !! "created_at" = Some (VFloat clock2)
       /\ rec !! "status" = Some (VStr "pending")
       /\ rec !! "result" = None.
Proof.
  apply (create_twice_overwrites t1_request t1_again clock0 clock2 init).
  - reflexivity.
  - left. reflexivity.
Defined.

(** ** Listing the store *)

Lemma listing_tasks_eq (w : World) :
  listing_tasks (listing w) = list_entry <$> map_to_list (tasks_store w).
Proof. reflexivity. Qed.

Lemma listing_count_eq (w : World) :
  listing_count (listing w) = Some (Z.of_nat (size (tasks_store w))).
Proof. reflexivity. Qed.

Lemma listing_tasks_length (w : World) :
  length (listing_tasks (listing w)) = size (tasks_store w).
Proof. by rewrite listing_tasks_eq, length_fmap, length_map_to_list. Qed.

Lemma list_entry_lookup (task_id key : string) (rec : dict) :
  key <> "task_id" ->
  forall e : dict, list_entry (task_id, rec) = VDict e -> e !! key = rec !! key.
Proof.
  intros Hne e [= <-]. simpl. apply lookup_union_l.
  by rewrite lookup_insert_ne.
Qed.

Lemma list_entry_task_id (task_id : string) (rec : dict) :
  rec !! "task_id" = None ->
  entry_task_id (list_entry (task_id, rec)) = Some task_id.
Proof.
  intros Hnone. unfold entry_task_id, list_entry. simpl.
  by rewrite lookup_union_r, lookup_insert_eq.
Qed.

Lemma filter_entries (items : list (string * dict)) (task_id : string) :
  Forall (fun item => item.2 !! "task_id" = None) items ->
  length (filter (fun e => entry_task_id e = Some task_id) (list_entry <$> items))
  = length (filter (fun item => item.1 = task_id) items).
Proof.
  induction 1 as [|[k rec] items Hk _ IH]; [reflexivity|].
  simpl in Hk. rewrite fmap_cons.
  destruct (decide (k = task_id)) as [->|Hne].
  - rewrite !filter_cons_True; [simpl; by rewrite IH | done |].
    by apply list_entry_task_id.
  - rewrite !filter_cons_False; [exact IH | by simpl |].
    rewrite list_entry_task_id by exact Hk. congruence.
Qed.

Lemma create_all_snoc (reqs : list (TaskRequest.t * float))
    (req : TaskRequest.t * float) (w : World) :
  create_all (reqs ++ [req]) w = (create_task req.1 req.2 (create_all reqs w)).2.
Proof. unfold create_all. by rewrite foldl_app. Qed.

Lemma create_all_lookup (reqs : list (TaskRequest.t * float)) (w : World)
    (task_id : string) :
  task_id ∈ request_ids reqs ->
  is_Some (tasks_store (create_all reqs w) !! task_id).
Proof.
  induction reqs as [|req reqs IH] using rev_ind; intros Hin.
  - by apply elem_of_nil in Hin.
  - rewrite create_all_snoc, create_task_eq. simpl.
    unfold request_ids in Hin. rewrite fmap_app in Hin.
    apply elem_of_app in Hin as [Hin|Hin].
    + destruct (decide (TaskRequest.task_id req.1 = task_id)) as [->|Hne].
      * rewrite lookup_insert_eq. by eexists.
      * rewrite lookup_insert_ne by done. by apply IH.
    + apply list_elem_of_singleton in Hin as ->.
      rewrite lookup_insert_eq. by eexists.
Qed.

Lemma create_all_absent (reqs : list (TaskRequest.t * float)) (w : World)
    (task_id : string) :
  task_id ∉ request_ids reqs ->
  tasks_store (create_all reqs w) !! task_id = tasks_store w !! task_id.
Proof.
  induction reqs as [|req reqs IH] using rev_ind; intros Hnin; [reflexivity|].
  rewrite create_all_snoc, create_task_eq. simpl.
  unfold request_ids in Hnin. rewrite fmap_app in Hnin.
  apply not_elem_of_app in Hnin as [Hnin Hne].
  rewrite lookup_insert_ne.
  - by apply IH.
  - intros Heq. apply Hne. simpl. rewrite Heq. by apply list_elem_of_singleton.
Qed.

Lemma create_all_size (reqs : list (TaskRequest.t * float)) (w : World) :
  NoDup (request_ids reqs) ->
  (forall task_id : string,
     task_id ∈ request_ids reqs -> tasks_store w !! task_id = None) ->
  size (tasks_store (create_all reqs w)) = size (tasks_store w) + length reqs.
Proof.
  induction reqs as [|req reqs IH] using rev_ind; intros Hnd Hfresh.
  - simpl. lia.
  - unfold request_ids in Hnd, Hfresh. rewrite fmap_app in Hnd, Hfresh.
    apply NoDup_app in Hnd as (Hnd & Hdisj & _).
    rewrite create_all_snoc, create_task_eq. simpl.
    rewrite map_size_insert_None.
    + rewrite IH, length_app; [simpl; lia | exact Hnd |].
      intros tid Hin. apply Hfresh, elem_of_app. by left.
    + rewrite create_all_absent.
      * apply Hfresh, elem_of_app. right. by apply list_elem_of_singleton.
      * intros Hin. apply (Hdisj _ Hin). by apply list_elem_of_singleton.
Qed.

(** C9: the listing carries one entry per stored record and nothing else,
    and a count equal to the number of stored records; on a reachable state
    each stored identifier labels exactly one entry, which repeats all the
    stored fields of its record.  After [N] creations with distinct
    identifiers on an empty store, the listing has [N] entries and count
    [N], and deleting one of these identifiers brings both to [N - 1]. *)
Theorem list_tasks_lists_store (w : World) :
  list_tasks w = (inr (listing w), w)
  /\ listing_count (listing w) = Some (Z.of_nat (size (tasks_store w)))
  /\ length (listing_tasks (listing w)) = size (tasks_store w)
  /\ (forall entry : value,
        entry ∈ listing_tasks (listing w) ->
        exists (task_id : string) (rec : dict),
          tasks_store w !! task_id = Some rec
          /\ entry = list_entry (task_id, rec))
  /\ (reachable w ->
      forall (task_id : string) (rec : dict),
        tasks_store w !! task_id = Some rec ->
        length (filter (fun e => entry_task_id e = Some task_id)
                  (listing_tasks (listing w))) = 1
        /\ exists e : dict,
             VDict e ∈ listing_tasks (listing w)
             /\ e !! "task_id" = Some (VStr task_id)
             /\ forall key : string, key <> "task_id" -> e !! key = rec !! key)
  /\ (forall reqs : list (TaskRequest.t * float),
        tasks_store w = ∅ ->
        NoDup (request_ids reqs) ->
        listing_count (listing (create_all reqs w)) = Some (Z.of_nat (length reqs))
        /\ length (listing_tasks (listing (create_all reqs w))) = length reqs
        /\ forall task_id : string,
             task_id ∈ request_ids reqs ->
             listing_count (listing (delete_task task_id (create_all reqs w)).2)
             = Some (Z.of_nat (length reqs - 1))
             /\ length (listing_tasks
                          (listing (delete_task task_id (create_all reqs w)).2))
                = length reqs - 1).
Proof.
  split; [reflexivity|].
  split; [apply listing_count_eq|].
  split; [apply listing_tasks_length|].
  split; [|split].
  - intros entry Hin. rewrite listing_tasks_eq in Hin.
    apply list_elem_of_fmap in Hin as ([tid rec] & -> & Hin).
    exists tid, rec. split; [by apply elem_of_map_to_list | reflexivity].
  - intros Hreach task_id rec Hlk.
    pose proof (reachable_store_shape w Hreach) as Hshape.
    rewrite listing_tasks_eq. split.
    + rewrite filter_entries; [exact (store_key_once _ _ _ Hlk)|].
      apply Forall_forall. intros [tid' rec'] Hin'.
      apply elem_of_map_to_list in Hin'.
      exact (proj2 (proj2 (Hshape tid' rec' Hin'))).
    + exists (rec ∪ <["task_id" := VStr task_id]> ∅).
      split; [|split].
      * apply list_elem_of_fmap. exists (task_id, rec).
        split; [reflexivity | by apply elem_of_map_to_list].
      * rewrite lookup_union_r; [apply lookup_insert_eq|].
        exact (proj2 (proj2 (Hshape task_id rec Hlk))).
      * intros key Hne. by apply (list_entry_lookup task_id key rec).
  - intros reqs Hempty Hnd.
    assert (Hsize : size (tasks_store (create_all reqs w)) = length reqs).
    { rewrite create_all_size; [by rewrite Hempty, map_size_empty | exact Hnd |].
      intros tid _. by rewrite Hempty. }
    rewrite listing_count_eq, listing_tasks_length, Hsize.
    split; [reflexivity|]. split; [reflexivity|].
    intros task_id Hin.
    destruct (create_all_lookup reqs w task_id Hin) as [rec Hlk].
    rewrite listing_count_eq, listing_tasks_length.
    rewrite (delete_task_present _ _ _ Hlk). simpl.
    rewrite map_size_delete_Some by (by eexists).
    rewrite Hsize. split; [f_equal; f_equal; lia | lia].
Qed.

Lemma list_tasks_lists_store_witness :
  (length (filter (fun e => entry_task_id e = Some "t1")
             (listing_tasks (listing w_created))) = 1
   /\ exists e : dict,
        VDict e ∈ listing_tasks (listing w_created)
        /\ e !! "task_id" = Some (VStr "t1")
        /\ forall key : string,
             key <> "task_id" -> e !! key = fresh_record t1_request clock0 !! key)
  /\ (listing_count (listing (create_all [(t1_request, clock0); (t2_request, clock1)] init))
      = Some 2%Z
      /\ length (listing_tasks
                   (listing (create_all [(t1_request, clock0); (t2_request, clock1)] init)))
         = 2
      /\ forall task_id : string,
           task_id ∈ request_ids [(t1_request, clock0); (t2_request, clock1)] ->
           listing_count
             (listing (delete_task task_id
                         (create_all [(t1_request, clock0); (t2_request, clock1)] init)).2)
           = Some 1%Z
           /\ length (listing_tasks
                        (listing (delete_task task_id
                                    (create_all [(t1_request, clock0); (t2_request, clock1)]
                                       init)).2))
              = 1).
Proof.
  split.
  - apply (proj1 (proj2 (proj2 (proj2 (proj2 (list_tasks_lists_store w_created)))))).
    + apply (reachable_step init w_created (EvCreate t1_request clock0));
        [exact reachable_init | reflexivity].
    + reflexivity.
  - apply (proj2 (proj2 (proj2 (proj2 (proj2 (list_tasks_lists_store init)))))
             [(t1_request, clock0); (t2_request, clock1)]).
    + reflexivity.
    + apply (bool_decide_unpack _). vm_compute. exact I.
Defined.

Example listing_after_two_creations :
  listing_count (listing (create_all [(t1_request, clock0); (t2_request, clock1)] init))
  = Some 2%Z
  /\ listing_count
       (listing (delete_task "t2"
                   (create_all [(t1_request, clock0); (t2_request, clock1)] init)).2)
     = Some 1%Z.
Proof. split; reflexivity. Qed.

(** * Further properties of the handlers *)

(** ** The life of a task *)

Lemma completed_record_again (rec : dict) (now1 now2 : float) :
  completed_record (completed_record rec now1) now2 = completed_record rec now2.
Proof.
  unfold completed_record.
  rewrite (insert_insert_ne _ "status" "result") by done.
  by rewrite !insert_insert_eq.
Qed.

(** X1: a task that was created and whose completion step has run is read
    back with status ["completed"] and the result the step wrote; right
    after the creation that step is enabled. *)
Theorem create_complete_get (task : TaskRequest.t) (now now' : float) (w : World) :
  get_task (TaskRequest.task_id task)
    (process_task (TaskRequest.task_id task) now' (create_task task now w).2).2
  = (inr (TaskResponse.Build (TaskRequest.task_id task) "completed"
            "Task retrieved successfully" (Some (completion_result now'))),
     (process_task (TaskRequest.task_id task) now' (create_task task now w).2).2)
  /\ is_Some (exec (EvComplete (TaskRequest.task_id task) now')
               (create_task task now w).2).
Proof.
  split.
  - rewrite create_task_eq.
    rewrite (process_task_present _ _ _ (fresh_record task now))
      by (simpl; apply lookup_insert_eq).
    simpl.
    rewrite (get_task_present _ _ (completed_record (fresh_record task now) now'))
      by (simpl; apply lookup_insert_eq).
    reflexivity.
  - rewrite create_task_eq. simpl. unfold is_scheduled.
    rewrite existsb_app. simpl.
    rewrite String.eqb_refl, orb_true_r. by eexists.
Qed.

(** X2: a second completion step for the same identifier only refreshes the
    timestamp: two steps in a row leave the state the later one alone would
    leave. *)
Theorem process_task_twice (task_id : string) (now1 now2 : float) (w : World) :
  process_task task_id now2 (process_task task_id now1 w).2
  = process_task task_id now2 w.
Proof.
  destruct (tasks_store w !! task_id) as [rec|] eqn:Hlk.
  - rewrite (process_task_present _ now1 _ _ Hlk). simpl.
    rewrite (process_task_present _ now2 _ (completed_record rec now1))
      by (simpl; apply lookup_insert_eq).
    rewrite (process_task_present _ now2 _ _ Hlk). simpl.
    by rewrite insert_insert_eq, completed_record_again.
  - by rewrite (process_task_absent _ now1 _ Hlk).
Qed.

Lemma process_task_succeeds (task_id : string) (now : float) (w : World) :
  (process_task task_id now w).1 = inr tt.
Proof.
  destruct (tasks_store w !! task_id) as [rec|] eqn:Hlk.
  - by rewrite (process_task_present _ _ _ _ Hlk).
  - by rewrite (process_task_absent _ _ _ Hlk).
Qed.

(** X3: the completion step never raises, whatever the store holds; a
    deletion raises nothing but the not-found exception; and on a reachable
    state a read raises nothing but the not-found exception, so that no
    [KeyError] or validation failure can escape a handler. *)
Theorem handlers_raise_not_found_only (task_id : string) (w : World) :
  (forall now : float, (process_task task_id now w).1 = inr tt)
  /\ (forall e : exn,
        (delete_task task_id w).1 = inl e ->
        e = HTTPException 404 "Task not found")
  /\ (reachable w ->
      forall e : exn,
        (get_task task_id w).1 = inl e -> e = HTTPException 404 "Task not found").
Proof.
  split; [intros now; apply process_task_succeeds|]. split.
  - intros e. destruct (tasks_store w !! task_id) as [rec|] eqn:Hlk.
    + by rewrite (delete_task_present _ _ _ Hlk).
    + rewrite (delete_task_absent _ _ Hlk). simpl. congruence.
  - intros Hreach e. destruct (tasks_store w !! task_id) as [rec|] eqn:Hlk.
    + destruct (get_task_shaped _ _ _ Hlk
                  (reachable_store_shape w Hreach task_id rec Hlk))
        as (s & _ & _ & ->).
      discriminate.
    + rewrite (get_task_absent _ _ Hlk). simpl. congruence.
Qed.

Lemma handlers_raise_not_found_only_witness :
  (process_task "t2" clock1 w_created).1 = inr tt
  /\ HTTPException 404 "Task not found" = HTTPException 404 "Task not found".
Proof.
  split.
  - apply (proj1 (handlers_raise_not_found_only "t2" w_created) clock1).
  - apply (proj2 (proj2 (handlers_raise_not_found_only "t2" w_created))).
    + apply (reachable_step init w_created (EvCreate t1_request clock0));
        [exact reachable_init | reflexivity].
    + reflexivity.
Defined.

(** ** Creation and deletion *)

(** X4: deleting a task right after its creation takes the store back to
    what it was without that identifier, which is the store as it was when
    the identifier is new; the completion step that the creation scheduled
    stays scheduled. *)
Theorem create_then_delete (task : TaskRequest.t) (now : float) (w : World) :
  tasks_store (delete_task (TaskRequest.task_id task) (create_task task now w).2).2
  = delete (TaskRequest.task_id task) (tasks_store w)
  /\ (tasks_store w !! TaskRequest.task_id task = None ->
      tasks_store
        (delete_task (TaskRequest.task_id task) (create_task task now w).2).2
      = tasks_store w)
  /\ background_tasks
       (delete_task (TaskRequest.task_id task) (create_task task now w).2).2
     = (background_tasks w ++ [TaskRequest.task_id task])%list.
Proof.
  rewrite create_task_eq.
  rewrite (delete_task_present _ _ (fresh_record task now))
    by (simpl; apply lookup_insert_eq).
  simpl. rewrite delete_insert_eq.
  split; [reflexivity|]. split; [|reflexivity].
  intros Hlk. by apply delete_id.
Qed.

Lemma create_then_delete_witness :
  tasks_store (delete_task "t2" (create_task t2_request clock1 w_created).2).2
  = tasks_store w_created.
Proof.
  apply (proj1 (proj2 (create_then_delete t2_request clock1 w_created))).
  reflexivity.
Defined.

(** X5: a creation touches the record of its own identifier only, grows the
    store by one record when the identifier is new and by none when it is
    taken, and schedules exactly one completion step, for that identifier. *)
Theorem create_task_frame (task : TaskRequest.t) (now : float) (w : World) :
  (forall other : string,
     other <> TaskRequest.task_id task ->
     tasks_store (create_task task now w).2 !! other = tasks_store w !! other)
  /\ (tasks_store w !! TaskRequest.task_id task = None ->
      size (tasks_store (create_task task now w).2) = S (size (tasks_store w)))
  /\ (is_Some (tasks_store w !! TaskRequest.task_id task) ->
      size (tasks_store (create_task task now w).2) = size (tasks_store w))
  /\ background_tasks (create_task task now w).2
     = (background_tasks w ++ [TaskRequest.task_id task])%list.
Proof.
  rewrite create_task_eq. simpl.
  split; [intros other Hne; by apply lookup_insert_ne|].
  split; [apply map_size_insert_None|].
  split; [apply map_size_insert_Some | reflexivity].
Qed.

Lemma create_task_frame_witness :
  size (tasks_store (create_task t2_request clock1 w_created).2)
  = S (size (tasks_store w_created))
  /\ size (tasks_store (create_task t1_again clock2 w_created).2)
     = size (tasks_store w_created)
  /\ tasks_store (create_task t2_request clock1 w_created).2 !! "t1"
     = tasks_store w_created !! "t1".
Proof.
  split; [|split].
  - apply (proj1 (proj2 (create_task_frame t2_request clock1 w_created))).
    reflexivity.
  - apply (proj1 (proj2 (proj2 (create_task_frame t1_again clock2 w_created)))).
    by eexists.
  - apply (proj1 (create_task_frame t2_request clock1 w_created)).
    discriminate.
Defined.

(** X6: a deletion cannot be repeated: whatever the first one did, a second
    deletion of the same identifier fails with the not-found exception and
    changes nothing. *)
Theorem delete_task_twice (task_id : string) (w : World) :
  delete_task task_id (delete_task task_id w).2
  = (inl (HTTPException 404 "Task not found"), (delete_task task_id w).2).
Proof.
  apply delete_task_absent.
  destruct (tasks_store w !! task_id) as [rec|] eqn:Hlk.
  - rewrite (delete_task_present _ _ _ Hlk). simpl. apply lookup_delete_eq.
  - by rewrite (delete_task_absent _ _ Hlk).
Qed.

(** ** The fields of the stored records *)

Lemma fresh_record_fields (task : TaskRequest.t) (now : float) :
  record_fields (fresh_record task now).
Proof.
  split; [left; split; [reflexivity|] | by repeat split; eexists].
  unfold fresh_record, pending_keys.
  rewrite !dom_insert_L, dom_empty_L. set_solver.
Qed.

Lemma completed_record_fields (rec : dict) (now : float) :
  record_fields rec -> record_fields (completed_record rec now).
Proof.
  intros (Hkeys & Hdata & Hprio & Hcreated).
  split; [right|].
  - split; [apply completed_record_status|]. split.
    + unfold completed_record. rewrite !dom_insert_L.
      unfold completed_keys, pending_keys.
      destruct Hkeys as [[_ ->]|(_ & -> & _)];
        unfold completed_keys, pending_keys; set_solver.
    + exists now. apply completed_record_result.
  - by rewrite !completed_record_other.
Qed.

(** X7: on a reachable state every stored record is either pending with
    exactly the keys [status], [data], [priority] and [created_at], or
    completed with these keys and [result], the result being the dictionary
    a completion step writes; [data] is a dictionary, [priority] an integer
    and [created_at] a float. *)
Theorem reachable_record_fields (w : World) (task_id : string) (rec : dict) :
  reachable w -> tasks_store w !! task_id = Some rec -> record_fields rec.
Proof.
  intros Hreach Hlk.
  refine (reachable_preserves record_fields _ _ w Hreach task_id rec Hlk).
  - exact fresh_record_fields.
  - exact completed_record_fields.
Qed.

Lemma reachable_record_fields_witness :
  record_fields (completed_record (fresh_record t1_request clock0) clock1).
Proof.
  apply (reachable_record_fields w_completed "t1").
  - apply (reachable_step w_created w_completed (EvComplete "t1" clock1));
      [|reflexivity].
    apply (reachable_step init w_created (EvCreate t1_request clock0));
      [exact reachable_init | reflexivity].
  - reflexivity.
Defined.

(** ** What one event can change *)

Lemma exec_complete (task_id : string) (now : float) (w w' : World) :
  exec (EvComplete task_id now) w = Some w' ->
  is_scheduled task_id (background_tasks w) = true
  /\ w' = (process_task task_id now
             (mkWorld (tasks_store w) (unschedule task_id (background_tasks w)))).2.
Proof.
  simpl. destruct (is_scheduled task_id (background_tasks w)); [|discriminate].
  intros [= <-]. done.
Qed.

Lemma exec_store (e : event) (w w' : World) :
  exec e w = Some w' ->
  tasks_store w'
  = match e with
    | EvCreate task now =>
        <[TaskRequest.task_id task := fresh_record task now]> (tasks_store w)
    | EvDelete task_id => delete task_id (tasks_store w)
    | EvComplete task_id now =>
        match tasks_store w !! task_id with
        | Some rec => <[task_id := completed_record rec now]> (tasks_store w)
        | None => tasks_store w
        end
    | _ => tasks_store w
    end.
Proof.
  intros Hexec. destruct e as [task now|tid|tid| |tid now].
  - cbn [exec] in Hexec. apply (inj Some) in Hexec as <-. by rewrite create_task_eq.
  - cbn [exec] in Hexec. apply (inj Some) in Hexec as <-. by rewrite get_task_world.
  - cbn [exec] in Hexec. apply (inj Some) in Hexec as <-.
    destruct (tasks_store w !! tid) as [rec|] eqn:Hlk.
    + by rewrite (delete_task_present _ _ _ Hlk).
    + rewrite (delete_task_absent _ _ Hlk). simpl. by rewrite delete_id.
  - cbn [exec] in Hexec. apply (inj Some) in Hexec as <-. by rewrite list_tasks_eq.
  - apply exec_complete in Hexec as [_ ->].
    destruct (tasks_store w !! tid) as [rec|] eqn:Hlk.
    + by rewrite (process_task_present _ _ _ rec).
    + by rewrite process_task_absent.
Qed.

Lemma exec_background (e : event) (w w' : World) :
  exec e w = Some w' ->
  background_tasks w'
  = match e with
    | EvCreate task _ => (background_tasks w ++ [TaskRequest.task_id task])%list
    | EvComplete task_id _ => unschedule task_id (background_tasks w)
    | _ => background_tasks w
    end.
Proof.
  intros Hexec. destruct e as [task now|tid|tid| |tid now].
  - cbn [exec] in Hexec. apply (inj Some) in Hexec as <-. by rewrite create_task_eq.
  - cbn [exec] in Hexec. apply (inj Some) in Hexec as <-. by rewrite get_task_world.
  - cbn [exec] in Hexec. apply (inj Some) in Hexec as <-.
    destruct (tasks_store w !! tid) as [rec|] eqn:Hlk.
    + by rewrite (delete_task_present _ _ _ Hlk).
    + by rewrite (delete_task_absent _ _ Hlk).
  - cbn [exec] in Hexec. apply (inj Some) in Hexec as <-. by rewrite list_tasks_eq.
  - apply exec_complete in Hexec as [_ ->].
    destruct (tasks_store w !! tid) as [rec|] eqn:Hlk.
    + by rewrite (process_task_present _ _ _ rec).
    + by rewrite process_task_absent.
Qed.

(** X9: no event other than a creation or a deletion of the same identifier
    removes a stored record or changes its [data], [priority] or
    [created_at]; and a record that is completed stays completed. *)
Theorem exec_keeps_record (e : event) (w w' : World) (task_id : string) (rec : dict) :
  exec e w = Some w' ->
  tasks_store w !! task_id = Some rec ->
  is_create_of task_id e = false ->
  is_delete_of task_id e = false ->
  exists rec' : dict,
    tasks_store w' !! task_id = Some rec'
    /\ rec' !! "data" = rec !! "data"
    /\ rec' !! "priority" = rec !! "priority"
    /\ rec' !! "created_at" = rec !! "created_at"
    /\ (rec !! "status" = Some (VStr "completed") ->
        rec' !! "status" = Some (VStr "completed")).
Proof.
  intros Hexec Hlk Hcreate Hdelete.
  rewrite (exec_store e w w' Hexec).
  destruct e as [task now|tid|tid| |tid now]; simpl in Hcreate, Hdelete.
  - apply String.eqb_neq in Hcreate.
    exists rec. by rewrite lookup_insert_ne.
  - by exists rec.
  - apply String.eqb_neq in Hdelete.
    exists rec. by rewrite lookup_delete_ne.
  - by exists rec.
  - destruct (decide (tid = task_id)) as [->|Hne].
    + rewrite Hlk, lookup_insert_eq. exists (completed_record rec now).
      split; [reflexivity|].
      rewrite !completed_record_other by done.
      repeat split. intros _. apply completed_record_status.
    + exists rec. destruct (tasks_store w !! tid); [|done].
      by rewrite lookup_insert_ne.
Qed.

Lemma exec_keeps_record_witness :
  exists rec' : dict,
    tasks_store w_completed !! "t1" = Some rec'
    /\ rec' !! "data" = fresh_record t1_request clock0 !! "data"
    /\ rec' !! "priority" = fresh_record t1_request clock0 !! "priority"
    /\ rec' !! "created_at" = fresh_record t1_request clock0 !! "created_at"
    /\ (fresh_record t1_request clock0 !! "status" = Some (VStr "completed") ->
        rec' !! "status" = Some (VStr "completed")).
Proof.
  apply (exec_keeps_record (EvComplete "t1" clock1) w_created w_completed "t1"
           (fresh_record t1_request clock0)); reflexivity.
Defined.

(** X10: the set of stored identifiers changes by creations and deletions
    only: a creation adds its identifier, a deletion removes its own, and a
    read, a listing or a completion step leaves the set as it is. *)
Theorem exec_dom (e : event) (w w' : World) :
  exec e w = Some w' ->
  dom (tasks_store w') = event_dom e (dom (tasks_store w)).
Proof.
  intros Hexec. rewrite (exec_store e w w' Hexec).
  destruct e as [task now|tid|tid| |tid now]; simpl.
  - apply dom_insert_L.
  - reflexivity.
  - apply dom_delete_L.
  - reflexivity.
  - destruct (tasks_store w !! tid) as [rec|] eqn:Hlk; [|reflexivity].
    apply dom_insert_lookup_L. by eexists.
Qed.

Lemma exec_dom_witness :
  dom (tasks_store w_completed) = dom (tasks_store w_created).
Proof.
  apply (exec_dom (EvComplete "t1" clock1) w_created w_completed).
  reflexivity.
Defined.

(** ** Scheduled completion steps *)

Lemma is_scheduled_app (task_id x : string) (pending : list string) :
  is_scheduled task_id (pending ++ [x])
  = is_scheduled task_id pending || String.eqb task_id x.
Proof.
  unfold is_scheduled. rewrite existsb_app. simpl. by rewrite orb_false_r.
Qed.

Lemma is_scheduled_unschedule_ne (task_id other : string) (pending : list string) :
  other <> task_id ->
  is_scheduled other (unschedule task_id pending) = is_scheduled other pending.
Proof.
  intros Hne. induction pending as [|p pending IH]; [reflexivity|].
  simpl. destruct (String.eqb p task_id) eqn:Hp.
  - apply String.eqb_eq in Hp as ->.
    apply String.eqb_neq in Hne. unfold is_scheduled. by rewrite Hne.
  - unfold is_scheduled in *. simpl. by rewrite IH.
Qed.

Lemma exec_pending_scheduled (e : event) (w w' : World) :
  pending_scheduled w -> exec e w = Some w' -> pending_scheduled w'.
Proof.
  intros Hw Hexec task_id rec.
  rewrite (exec_store e w w' Hexec), (exec_background e w w' Hexec).
  destruct e as [task now|tid|tid| |tid now].
  - rewrite is_scheduled_app.
    destruct (decide (TaskRequest.task_id task = task_id)) as [->|Hne].
    + intros _ _. by rewrite String.eqb_refl, orb_true_r.
    + rewrite lookup_insert_ne by done. intros Hlk Hst.
      by rewrite (Hw _ _ Hlk Hst).
  - apply Hw.
  - destruct (decide (tid = task_id)) as [->|Hne].
    + by rewrite lookup_delete_eq.
    + rewrite lookup_delete_ne by done. apply Hw.
  - apply Hw.
  - destruct (decide (tid = task_id)) as [->|Hne].
    + destruct (tasks_store w !! task_id) as [rec0|] eqn:Hlk0.
      * rewrite lookup_insert_eq. intros [= <-].
        by rewrite completed_record_status.
      * by rewrite Hlk0.
    + rewrite is_scheduled_unschedule_ne by done.
      destruct (tasks_store w !! tid); [rewrite lookup_insert_ne by done|];
        apply Hw.
Qed.

Lemma reachable_pending_scheduled (w : World) : reachable w -> pending_scheduled w.
Proof.
  induction 1 as [|w w' e _ IH Hexec].
  - intros task_id rec Hlk. simpl in Hlk. by apply lookup_empty_Some in Hlk.
  - exact (exec_pending_scheduled e w w' IH Hexec).
Qed.

(** X8: on a reachable state every pending task has a completion step
    waiting: the step for its identifier is enabled, and running it leaves
    the task completed. *)
Theorem pending_task_gets_completed
    (w : World) (task_id : string) (rec : dict) (now : float) :
  reachable w ->
  tasks_store w !! task_id = Some rec ->
  rec !! "status" = Some (VStr "pending") ->
  exists w' : World,
    exec (EvComplete task_id now) w = Some w'
    /\ tasks_store w' !! task_id = Some (completed_record rec now).
Proof.
  intros Hreach Hlk Hst.
  pose proof (reachable_pending_scheduled w Hreach task_id rec Hlk Hst) as Hsch.
  cbn [exec]. rewrite Hsch.
  eexists. split; [reflexivity|].
  rewrite (process_task_present _ _ _ rec) by exact Hlk.
  simpl. apply lookup_insert_eq.
Qed.

Lemma pending_task_gets_completed_witness :
  exists w' : World,
    exec (EvComplete "t1" clock1) w_created = Some w'
    /\ tasks_store w' !! "t1"
       = Some (completed_record (fresh_record t1_request clock0) clock1).
Proof.
  apply (pending_task_gets_completed w_created "t1"
           (fresh_record t1_request clock0) clock1).
  - apply (reachable_step init w_created (EvCreate t1_request clock0));
      [exact reachable_init | reflexivity].
  - reflexivity.
  - reflexivity.
Defined.

Lemma scheduled_count_app (task_id x : string) (pending : list string) :
  scheduled_count task_id (pending ++ [x])
  = scheduled_count task_id pending + (if String.eqb x task_id then 1 else 0).
Proof.
  unfold scheduled_count. rewrite List.filter_app, length_app. simpl.
  by destruct (String.eqb x task_id).
Qed.

Lemma scheduled_count_unschedule (task_id other : string) (pending : list string) :
  is_scheduled task_id pending = true ->
  scheduled_count other (unschedule task_id pending)
  + (if String.eqb task_id other then 1 else 0)
  = scheduled_count other pending.
Proof.
  unfold scheduled_count, is_scheduled.
  induction pending as [|p pending IH]; [discriminate|].
  simpl. intros Hsch. destruct (String.eqb p task_id) eqn:Hp.
  - apply String.eqb_eq in Hp as ->.
    destruct (String.eqb task_id other); simpl; lia.
  - rewrite String.eqb_sym, Hp in Hsch. simpl in Hsch.
    specialize (IH Hsch). simpl.
    destruct (String.eqb p other); simpl; lia.
Qed.

Lemma exec_scheduled_count (e : event) (w w' : World) (task_id : string) :
  exec e w = Some w' ->
  scheduled_count task_id (background_tasks w')
  + (if is_complete_of task_id e then 1 else 0)
  = scheduled_count task_id (background_tasks w)
    + (if is_create_of task_id e then 1 else 0).
Proof.
  intros Hexec. rewrite (exec_background e w w' Hexec).
  destruct e as [task now|tid|tid| |tid now]; simpl; try lia.
  - rewrite scheduled_count_app. lia.
  - apply exec_complete in Hexec as [Hsch _].
    rewrite (scheduled_count_unschedule _ _ _ Hsch). lia.
Qed.

(** X11: along any run, for each identifier, the completion steps that have
    run plus those still waiting are as many as the creations plus the steps
    waiting at the start; so from the initial state no identifier is
    completed more often than it was created. *)
Theorem completions_match_creations
    (trace : list event) (w w' : World) (task_id : string) :
  run trace w = Some w' ->
  scheduled_count task_id (background_tasks w') + completions task_id trace
  = scheduled_count task_id (background_tasks w) + creations task_id trace
  /\ (w = init -> completions task_id trace <= creations task_id trace).
Proof.
  intros Hrun.
  assert (Heq : scheduled_count task_id (background_tasks w')
                + completions task_id trace
                = scheduled_count task_id (background_tasks w)
                  + creations task_id trace).
  { revert w Hrun. induction trace as [|e trace IH]; intros w Hrun.
    - injection Hrun as <-. reflexivity.
    - cbn [run] in Hrun. destruct (exec e w) as [w1|] eqn:Hexec; [|discriminate].
      specialize (IH w1 Hrun).
      pose proof (exec_scheduled_count e w w1 task_id Hexec) as Hstep.
      unfold completions, creations in *. simpl.
      destruct (is_complete_of task_id e), (is_create_of task_id e); simpl; lia. }
  split; [exact Heq|].
  intros ->. simpl in Heq. unfold scheduled_count in Heq. simpl in Heq. lia.
Qed.

Lemma completions_match_creations_witness :
  scheduled_count "t1" (background_tasks w_completed)
  + completions "t1" [EvCreate t1_request clock0; EvComplete "t1" clock1]
  = scheduled_count "t1" (background_tasks init)
    + creations "t1" [EvCreate t1_request clock0; EvComplete "t1" clock1]
  /\ (init = init ->
      completions "t1" [EvCreate t1_request clock0; EvComplete "t1" clock1]
      <= creations "t1" [EvCreate t1_request clock0; EvComplete "t1" clock1]).
Proof.
  apply (completions_match_creations
           [EvCreate t1_request clock0; EvComplete "t1" clock1] init w_completed "t1").
  reflexivity.
Defined.

(** ** Operations on different identifiers *)

Lemma process_task_store (task_id : string) (now : float) (w : World) :
  tasks_store (process_task task_id now w).2
  = match tasks_store w !! task_id with
    | Some rec => <[task_id := completed_record rec now]> (tasks_store w)
    | None => tasks_store w
    end.
Proof.
  destruct (tasks_store w !! task_id) as [rec|] eqn:Hlk.
  - by rewrite (process_task_present _ _ _ _ Hlk).
  - by rewrite (process_task_absent _ _ _ Hlk).
Qed.

Lemma delete_task_store (task_id : string) (w : World) :
  tasks_store (delete_task task_id w).2 = delete task_id (tasks_store w).
Proof.
  destruct (tasks_store w !! task_id) as [rec|] eqn:Hlk.
  - by rewrite (delete_task_present _ _ _ Hlk).
  - rewrite (delete_task_absent _ _ Hlk). simpl. by rewrite delete_id.
Qed.

Lemma create_task_store (task : TaskRequest.t) (now : float) (w : World) :
  tasks_store (create_task task now w).2
  = <[TaskRequest.task_id task := fresh_record task now]> (tasks_store w).
Proof. reflexivity. Qed.

(** X12: operations on different identifiers do not interfere: two
    creations, a completion step and a creation, or a deletion and a
    creation leave the same store in either order. *)
Theorem different_identifiers_commute
    (task1 task2 : TaskRequest.t) (now1 now2 : float) (task_id : string) (w : World) :
  TaskRequest.task_id task1 <> TaskRequest.task_id task2 ->
  task_id <> TaskRequest.task_id task2 ->
  tasks_store (create_task task2 now2 (create_task task1 now1 w).2).2
  = tasks_store (create_task task1 now1 (create_task task2 now2 w).2).2
  /\ tasks_store (process_task task_id now1 (create_task task2 now2 w).2).2
     = tasks_store (create_task task2 now2 (process_task task_id now1 w).2).2
  /\ tasks_store (delete_task task_id (create_task task2 now2 w).2).2
     = tasks_store (create_task task2 now2 (delete_task task_id w).2).2.
Proof.
  intros Hne12 Hne. split; [|split].
  - rewrite !create_task_store. by apply insert_insert_ne.
  - rewrite process_task_store, !create_task_store, process_task_store.
    rewrite lookup_insert_ne by done.
    destruct (tasks_store w !! task_id) as [rec|]; [|reflexivity].
    by apply insert_insert_ne.
  - rewrite delete_task_store, !create_task_store, delete_task_store.
    by apply delete_insert_ne.
Qed.

Lemma different_identifiers_commute_witness :
  tasks_store (create_task t2_request clock2 (create_task t1_request clock1 init).2).2
  = tasks_store (create_task t1_request clock1 (create_task t2_request clock2 init).2).2
  /\ tasks_store (process_task "t1" clock1 (create_task t2_request clock2 w_created).2).2
     = tasks_store (create_task t2_request clock2 (process_task "t1" clock1 w_created).2).2
  /\ tasks_store (delete_task "t1" (create_task t2_request clock2 w_created).2).2
     = tasks_store (create_task t2_request clock2 (delete_task "t1" w_created).2).2.
Proof.
  split; [|split].
  - apply (different_identifiers_commute t1_request t2_request clock1 clock2 "t1" init);
      discriminate.
  - apply (different_identifiers_commute t1_request t2_request clock1 clock2 "t1"
             w_created); discriminate.
  - apply (different_identifiers_commute t1_request t2_request clock1 clock2 "t1"
             w_created); discriminate.
Defined.

(** * The metrics middleware *)

Lemma counter_value_inc_eq (l : label) (c : gmap label nat) :
  counter_value l (counter_inc l c) = S (counter_value l c).
Proof. unfold counter_inc, counter_value at 1. by rewrite lookup_insert_eq. Qed.

Lemma counter_value_inc_ne (l l' : label) (c : gmap label nat) :
  l' <> l -> counter_value l' (counter_inc l c) = counter_value l' c.
Proof.
  intros Hne. unfold counter_inc, counter_value at 1.
  by rewrite lookup_insert_ne.
Qed.

Lemma metrics_middleware_answered (call_next : Request -> M Response)
    (request : Request) (start_time end_time : float) (a : App)
    (response : Response) (w' : World) :
  call_next request (app_world a) = (inr response, w') ->
  metrics_middleware call_next request start_time end_time a
  = (inr response,
     mkApp w'
       (mkMetrics
          (counter_inc (label_of request response) (REQUEST_COUNT (app_metrics a)))
          (REQUEST_DURATION (app_metrics a) ++ [PrimFloat.sub end_time start_time]))).
Proof. intros Hcall. unfold metrics_middleware. by rewrite Hcall. Qed.

Lemma metrics_middleware_raised (call_next : Request -> M Response)
    (request : Request) (start_time end_time : float) (a : App)
    (e : exn) (w' : World) :
  call_next request (app_world a) = (inl e, w') ->
  metrics_middleware call_next request start_time end_time a
  = (inl e, mkApp w' (app_metrics a)).
Proof. intros Hcall. unfold metrics_middleware. by rewrite Hcall. Qed.

(** X13: the middleware hands on what the application behind it answers or
    raises, with the application's effect on the task store.  For an
    answered request it adds one to the counter of that request's method,
    path and status code, leaves every other counter alone and records one
    duration, the difference of the two clock readings; for a request that
    ends in an exception it records nothing. *)
Theorem metrics_middleware_records (call_next : Request -> M Response)
    (request : Request) (start_time end_time : float) (a : App) :
  (metrics_middleware call_next request start_time end_time a).1
  = (call_next request (app_world a)).1
  /\ app_world (metrics_middleware call_next request start_time end_time a).2
     = (call_next request (app_world a)).2
  /\ (forall response : Response,
        (call_next request (app_world a)).1 = inr response ->
        counter_value (label_of request response)
          (REQUEST_COUNT
             (app_metrics
                (metrics_middleware call_next request start_time end_time a).2))
        = S (counter_value (label_of request response)
               (REQUEST_COUNT (app_metrics a)))
        /\ (forall l : label,
              l <> label_of request response ->
              counter_value l
                (REQUEST_COUNT
                   (app_metrics
                      (metrics_middleware call_next request start_time end_time a).2))
              = counter_value l (REQUEST_COUNT (app_metrics a)))
        /\ REQUEST_DURATION
             (app_metrics
                (metrics_middleware call_next request start_time end_time a).2)
           = (REQUEST_DURATION (app_metrics a)
                ++ [PrimFloat.sub end_time start_time])%list)
  /\ (forall e : exn,
        (call_next request (app_world a)).1 = inl e ->
        app_metrics (metrics_middleware call_next request start_time end_time a).2
        = app_metrics a).
Proof.
  destruct (call_next request (app_world a)) as [[e|response] w'] eqn:Hcall.
  - rewrite (metrics_middleware_raised _ _ _ _ _ _ _ Hcall). simpl.
    repeat split; intros; discriminate.
  - rewrite (metrics_middleware_answered _ _ _ _ _ _ _ Hcall). simpl.
    split; [reflexivity|]. split; [reflexivity|]. split; [|intros; discriminate].
    intros response' [= <-].
    split; [apply counter_value_inc_eq|].
    split; [intros l Hne; by apply counter_value_inc_ne | reflexivity].
Qed.

Lemma metrics_middleware_records_witness :
  counter_value ("GET", "t1", 200%Z)
    (REQUEST_COUNT
       (app_metrics
          (metrics_middleware sample_app (mkRequest "GET" "t1") clock0 clock1 app0).2))
  = 1.
Proof.
  apply (proj1 (proj1 (proj2 (proj2
           (metrics_middleware_records sample_app (mkRequest "GET" "t1")
              clock0 clock1 app0)))
           (mkResponse 200 (VStr "pending")) eq_refl)).
Defined.

(** X14: after a sequence of requests has been served through the
    middleware, each counter has grown by the number of answered requests
    that carry its label, and the durations recorded are as many as the
    requests answered, which are at most the requests received. *)
Theorem serve_all_counts (call_next : Request -> M Response)
    (reqs : list (Request * float * float)) (a : App) (l : label) :
  counter_value l (REQUEST_COUNT (app_metrics (serve_all call_next reqs a).1))
  = counter_value l (REQUEST_COUNT (app_metrics a))
    + length (filter (fun l' => l' = l) (serve_all call_next reqs a).2)
  /\ length (REQUEST_DURATION (app_metrics (serve_all call_next reqs a).1))
     = length (REQUEST_DURATION (app_metrics a))
       + length (serve_all call_next reqs a).2
  /\ length (serve_all call_next reqs a).2 <= length reqs.
Proof.
  revert a. induction reqs as [|[[request start_time] end_time] reqs IH]; intros a.
  - simpl. repeat split; lia.
  - cbn [serve_all].
    destruct (call_next request (app_world a)) as [[e|response] w'] eqn:Hcall.
    + rewrite (metrics_middleware_raised _ _ _ _ _ _ _ Hcall).
      destruct (IH (mkApp w' (app_metrics a))) as (Hc & Hd & Hl).
      simpl in Hc, Hd. rewrite Hc, Hd. simpl. repeat split; lia.
    + rewrite (metrics_middleware_answered _ _ _ _ _ _ _ Hcall).
      match goal with |- context [serve_all call_next reqs ?a1] =>
        destruct (IH a1) as (Hc & Hd & Hl);
        destruct (serve_all call_next reqs a1) as [a2 answered]
      end.
      simpl in *. rewrite Hc, Hd, length_app. simpl.
      destruct (decide (label_of request response = l)) as [Heq|Hne].
      * rewrite filter_cons_True by done. subst l.
        rewrite counter_value_inc_eq. simpl. repeat split; lia.
      * rewrite filter_cons_False by done.
        rewrite counter_value_inc_ne by congruence. repeat split; lia.
Qed.

Example serve_all_sample :
  counter_value ("GET", "t1", 200%Z)
    (REQUEST_COUNT
       (app_metrics
          (serve_all sample_app
             [(mkRequest "GET" "t1", clock0, clock1);
              (mkRequest "GET" "t9", clock1, clock2);
              (mkRequest "GET" "t1", clock1, clock2)] app0).1))
  = 2
  /\ counter_value ("GET", "t9", 404%Z)
       (REQUEST_COUNT
          (app_metrics
             (serve_all sample_app
                [(mkRequest "GET" "t1", clock0, clock1);
                 (mkRequest "GET" "t9", clock1, clock2);
                 (mkRequest "GET" "t1", clock1, clock2)] app0).1))
     = 1.
Proof. split; reflexivity. Qed.

(** * A read after a creation *)

Lemma stored_pending_read (task_id : string) (w : World) :
  stored_pending task_id w -> read_is_pending task_id w.
Proof.
  intros (rec & Hlk & Hstatus & Hresult).
  exists (TaskResponse.Build task_id "pending" "Task retrieved successfully" None).
  rewrite (get_task_present _ _ _ Hlk). simpl.
  unfold dict_getitem, dict_get. by rewrite Hstatus, Hresult.
Qed.

Lemma create_stored_pending (task : TaskRequest.t) (now : float) (w : World) :
  stored_pending (TaskRequest.task_id task) (create_task task now w).2.
Proof.
  exists (fresh_record task now). rewrite create_task_store.
  split; [apply lookup_insert_eq | done].
Qed.

Lemma exec_stored_pending (e : event) (w w' : World) (task_id : string) :
  exec e w = Some w' ->
  spares task_id e = true ->
  stored_pending task_id w -> stored_pending task_id w'.
Proof.
  intros Hexec Hspares (rec & Hlk & Hstatus & Hresult).
  unfold stored_pending. rewrite (exec_store e w w' Hexec).
  apply andb_true_iff in Hspares as [Hcomplete Hdelete].
  apply negb_true_iff in Hcomplete, Hdelete.
  destruct e as [task now|tid|tid| |tid now]; simpl in Hcomplete, Hdelete.
  - destruct (decide (TaskRequest.task_id task = task_id)) as [<-|Hne].
    + exists (fresh_record task now). split; [apply lookup_insert_eq | done].
    + exists rec. by rewrite lookup_insert_ne.
  - by exists rec.
  - apply String.eqb_neq in Hdelete. exists rec. by rewrite lookup_delete_ne.
  - by exists rec.
  - apply String.eqb_neq in Hcomplete. exists rec.
    destruct (tasks_store w !! tid); [rewrite lookup_insert_ne by done|]; done.
Qed.

Lemma run_stored_pending (trace : list event) (w w' : World) (task_id : string) :
  run trace w = Some w' ->
  forallb (spares task_id) trace = true ->
  stored_pending task_id w -> stored_pending task_id w'.
Proof.
  revert w. induction trace as [|e trace IH]; intros w Hrun Hspares Hw.
  - by injection Hrun as <-.
  - cbn [run] in Hrun. destruct (exec e w) as [w1|] eqn:Hexec; [|discriminate].
    simpl in Hspares. apply andb_true_iff in Hspares as [He Htrace].
    apply (IH w1 Hrun Htrace).
    exact (exec_stored_pending e w w1 task_id Hexec He Hw).
Qed.

(** C2, as the code has it: for a non-empty identifier, a read that follows
    the creation answers with status ["pending"] and no result when, in
    between, no completion step for that identifier has run, be it the
    creation's own or one that an earlier creation of the identifier left
    scheduled, and the task has not been deleted; whatever else was served
    in between. *)
Theorem create_then_get_is_pending
    (task : TaskRequest.t) (now : float) (mid : list event) (w w' : World) :
  TaskRequest.task_id task <> "" ->
  run (EvCreate task now :: mid) w = Some w' ->
  forallb (spares (TaskRequest.task_id task)) mid = true ->
  exists resp : TaskResponse.t,
    (get_task (TaskRequest.task_id task) w').1 = inr resp
    /\ TaskResponse.task_id resp = TaskRequest.task_id task
    /\ TaskResponse.status resp = "pending"
    /\ TaskResponse.result resp = None.
Proof.
  intros _ Hrun Hspares. cbn [run exec] in Hrun.
  apply (stored_pending_read (TaskRequest.task_id task) w').
  apply (run_stored_pending mid (create_task task now w).2 w' _ Hrun Hspares).
  apply create_stored_pending.
Qed.

Lemma create_then_get_is_pending_witness :
  exists resp : TaskResponse.t,
    (get_task "t1"
       (mkWorld
          (<["t2" := completed_record (fresh_record t2_request clock1) clock2]>
             (<["t1" := fresh_record t1_request clock0]> ∅))
          ["t1"])).1 = inr resp
    /\ TaskResponse.task_id resp = "t1"
    /\ TaskResponse.status resp = "pending"
    /\ TaskResponse.result resp = None.
Proof.
  apply (create_then_get_is_pending t1_request clock0
           [EvCreate t2_request clock1; EvList; EvComplete "t2" clock2] init).
  - discriminate.
  - reflexivity.
  - reflexivity.
Defined.

(** C2, as worded: the read would answer ["pending"] as long as the step
    that the creation itself scheduled has not run.  When ["t1"] is created
    again while the step of its first creation is still waiting, that older
    step runs first and completes the new record: the read answers
    ["completed"] while the step of the second creation is still
    scheduled. *)
Lemma recreated_task_read_completed :
  run [EvCreate t1_request clock0] init = Some w_created
  /\ (exists w' : World,
        run [EvCreate t1_again clock1; EvComplete "t1" clock2] w_created = Some w'
        /\ scheduled_count "t1" (background_tasks w') = 1
        /\ (get_task "t1" w').1
           = inr (TaskResponse.Build "t1" "completed" "Task retrieved successfully"
                    (Some (completion_result clock2))))
  /\ ~ pending_before_own_step t1_again clock1 w_created [EvComplete "t1" clock2].
Proof.
  split; [reflexivity|]. split.
  - eexists. split; [reflexivity|]. split; reflexivity.
  - intros Hclaim.
    destruct (Hclaim _ eq_refl eq_refl eq_refl) as (resp & Hget & _ & Hstatus & _).
    + vm_compute. lia.
    + vm_compute in Hget. injection Hget as <-. discriminate.
Qed.
